(** * The chat store of the frontend: sessions, message cache and the
      streaming send

    A shallow embedding of the zustand store [useChatStore]
    (frontend/src/stores/chat.ts, carried in src/frontend/src/App.tsx) and
    the properties of its operations.

    Conventions of the embedding.
    - The store state is the record [ChatState]; every [set(...)] of the
      source is a function from the state at the time of the call to the
      next state.  An [async] action is cut at its [await]s: each piece
      between two [await]s is one atomic transition (JavaScript runs it
      without interruption), and the value an [await] delivers is an
      argument of the next piece.
    - [sessionMessages], an object used as a dictionary, is a
      [gmap string (list Message.t)].
    - A rejected promise or thrown value is a [Thrown]; every handler of the
      source reads [error instanceof Error ? error.message : <default>].
    - Platform functions the store calls are parameters: the reading of a
      frame's JSON payload and [new Date(s).getTime()]. *)

From Stdlib Require Import ZArith String Ascii List Sorted Permutation Lia.
From Stdlib Require Import DecimalString.
From stdpp Require Import base option gmap strings list.

Open Scope string_scope.

(** ** JavaScript string operations used by the store *)

Module JS.

(** [s.startsWith(p)] *)
Fixpoint startsWith (s p : string) {struct p} : bool :=
  match p, s with
  | EmptyString, _ => true
  | String c p', String d s' => if Ascii.eqb c d then startsWith s' p' else false
  | String _ _, EmptyString => false
  end.

(** [s.slice(n)] for a non-negative [n] *)
Fixpoint slice (n : nat) (s : string) : string :=
  match n, s with
  | O, _ => s
  | S n', String _ s' => slice n' s'
  | S _, EmptyString => EmptyString
  end.

Definition newline : ascii := "010"%char.

(** [s.split('\n')]: the pieces between line feeds; a string without line
    feed gives one piece, and a trailing line feed gives a last empty
    piece. *)
Fixpoint split_newline (s : string) : list string :=
  match s with
  | EmptyString => [EmptyString]
  | String c s' =>
      if Ascii.eqb c newline then EmptyString :: split_newline s'
      else match split_newline s' with
           | piece :: rest => String c piece :: rest
           | [] => [String c EmptyString]
           end
  end.

(** The decimal rendering of a non-negative integer in a template string,
    as in [`temp-${Date.now()}`]. *)
Definition number_to_string (n : N) : string :=
  NilZero.string_of_uint (N.to_uint n).

(** Truthiness of a string: only the empty string is falsy. *)
Definition truthy (s : string) : bool :=
  match s with EmptyString => false | String _ _ => true end.

End JS.

(** ** Data model *)

Inductive Role := user | assistant | system | tool.

Module Message.

(** [interface Message].  [tool_calls] is [unknown[]]: its elements are
    kept as opaque texts.  [isStreaming?: boolean] is absent ([None]) or a
    boolean. *)
Record t := mk {
  id : string;
  role : Role;
  content : string;
  tool_call_id : option string;
  tool_calls : option (list string);
  created_at : string;
  isStreaming : option bool
}.

(** [m.content = c] *)
Definition set_content (c : string) (m : t) : t :=
  mk (id m) (role m) c (tool_call_id m) (tool_calls m) (created_at m) (isStreaming m).

(** [m.isStreaming = b] *)
Definition set_isStreaming (b : bool) (m : t) : t :=
  mk (id m) (role m) (content m) (tool_call_id m) (tool_calls m) (created_at m) (Some b).

(** [m.id = i] *)
Definition set_id (i : string) (m : t) : t :=
  mk i (role m) (content m) (tool_call_id m) (tool_calls m) (created_at m) (isStreaming m).

(** The test [m.isStreaming] of a condition: absent and [false] are falsy. *)
Definition streaming (m : t) : bool :=
  match isStreaming m with Some true => true | _ => false end.

End Message.

Module Session.

(** [interface Session] *)
Record t := mk {
  id : string;
  title : string;
  description : option string;
  model_name : string;
  is_archived : bool;
  is_pinned : bool;
  tags : list string;
  total_tokens_used : Z;
  created_at : string;
  updated_at : string;
  message_count : option Z;
  last_message_preview : option string
}.

(** The own properties of a response object that are fields of
    [Session]: [Partial<Session>].  A field is absent ([None]) or present
    with its value; an optional field that is present may hold no value. *)
Record partial := mkPartial {
  p_id : option string;
  p_title : option string;
  p_description : option (option string);
  p_model_name : option string;
  p_is_archived : option bool;
  p_is_pinned : option bool;
  p_tags : option (list string);
  p_total_tokens_used : option Z;
  p_created_at : option string;
  p_updated_at : option string;
  p_message_count : option (option Z);
  p_last_message_preview : option (option string)
}.

(** [{ ...s, ...p }]: every property present in [p] overrides the one of
    [s]. *)
Definition spread (s : t) (p : partial) : t :=
  mk (default (id s) (p_id p))
     (default (title s) (p_title p))
     (default (description s) (p_description p))
     (default (model_name s) (p_model_name p))
     (default (is_archived s) (p_is_archived p))
     (default (is_pinned s) (p_is_pinned p))
     (default (tags s) (p_tags p))
     (default (total_tokens_used s) (p_total_tokens_used p))
     (default (created_at s) (p_created_at p))
     (default (updated_at s) (p_updated_at p))
     (default (message_count s) (p_message_count p))
     (default (last_message_preview s) (p_last_message_preview p)).

(** [{ ...s, is_pinned: b }] *)
Definition set_is_pinned (b : bool) (s : t) : t :=
  mk (id s) (title s) (description s) (model_name s) (is_archived s) b
     (tags s) (total_tokens_used s) (created_at s) (updated_at s)
     (message_count s) (last_message_preview s).

(** [{ ...s, title, description }] *)
Definition set_title_description (ti : string) (de : option string) (s : t) : t :=
  mk (id s) ti de (model_name s) (is_archived s) (is_pinned s)
     (tags s) (total_tokens_used s) (created_at s) (updated_at s)
     (message_count s) (last_message_preview s).

End Session.

(** [interface ChatState], the data part. *)
Record ChatState := mkChatState {
  sessions : list Session.t;
  currentSessionId : option string;
  sessionMessages : gmap string (list Message.t);
  isLoadingSessions : bool;
  isLoadingMessages : bool;
  isSending : bool;
  isGeneratingTitle : bool;
  streamingContent : string;
  currentPhase : option string;
  error : option string
}.

(** The initial state of the store. *)
Definition initial_state : ChatState :=
  mkChatState [] None ∅ false false false false EmptyString None None.

(** A thrown value: an [Error] with its message, or any other value. *)
Inductive Thrown :=
| ThrownError (message : string)
| ThrownOther.

(** [error instanceof Error ? error.message : fallback] *)
Definition error_message (e : Thrown) (fallback : string) : string :=
  match e with
  | ThrownError m => m
  | ThrownOther => fallback
  end.

(** What an awaited remote call delivers. *)
Inductive Reply (A : Type) :=
| Resolved (a : A)
| Rejected (e : Thrown).
Arguments Resolved {A} a.
Arguments Rejected {A} e.

(** [state.sessionMessages[sessionId] || []] *)
Definition getSessionMessages (st : ChatState) (sessionId : string) : list Message.t :=
  default [] (sessionMessages st !! sessionId).

(** ** Session registry: the actions on the session list *)

(** [Array.prototype.sort(cmp)]: a stable sort; [cmp a b <= 0] keeps [a]
    before [b].  The result is the one of every stable sort when [cmp] is a
    consistent comparator. *)
Module JSArray.

Section Sort.
Context {A : Type} (cmp : A -> A -> Z).

Fixpoint insert (x : A) (l : list A) : list A :=
  match l with
  | [] => [x]
  | y :: l' => if (cmp x y <=? 0)%Z then x :: y :: l' else y :: insert x l'
  end.

Fixpoint sort (l : list A) : list A :=
  match l with
  | [] => []
  | x :: l' => insert x (sort l')
  end.
End Sort.

End JSArray.

(** The body [GET /api/v1/sessions/{id}] resolves to: the session's fields
    and, possibly, its [messages]. *)
Record SessionDetail := mkSessionDetail {
  detail_fields : Session.partial;
  detail_messages : option (list Message.t)
}.

(** The body [POST .../generate-title] resolves to. *)
Record TitleReply := mkTitleReply {
  reply_title : string;
  reply_description : option string
}.

Section Registry.

(** [new Date(s).getTime()], for the timestamps the backend sends (valid
    dates: the result is a number of milliseconds, never NaN). *)
Variable Date_getTime : string -> Z.

(** [fetchSessions], up to its [await]. *)
Definition fetchSessions_begin (st : ChatState) : ChatState :=
  mkChatState (sessions st) (currentSessionId st) (sessionMessages st)
    true (isLoadingMessages st) (isSending st) (isGeneratingTitle st)
    (streamingContent st) (currentPhase st) None.

(** [fetchSessions], after its [await]. *)
Definition fetchSessions_resolve (r : Reply (list Session.t)) (st : ChatState) : ChatState :=
  match r with
  | Resolved l =>
      mkChatState l (currentSessionId st) (sessionMessages st)
        false (isLoadingMessages st) (isSending st) (isGeneratingTitle st)
        (streamingContent st) (currentPhase st) (error st)
  | Rejected e =>
      mkChatState (sessions st) (currentSessionId st) (sessionMessages st)
        false (isLoadingMessages st) (isSending st) (isGeneratingTitle st)
        (streamingContent st) (currentPhase st)
        (Some (error_message e "Failed to load sessions"))
  end.

(** [createSession], up to its [await]. *)
Definition createSession_begin (st : ChatState) : ChatState :=
  mkChatState (sessions st) (currentSessionId st) (sessionMessages st)
    (isLoadingSessions st) (isLoadingMessages st) (isSending st) (isGeneratingTitle st)
    (streamingContent st) (currentPhase st) None.

(** [createSession], after its [await]: the next state, and the session it
    returns ([None] when it re-throws). *)
Definition createSession_resolve (r : Reply Session.t) (st : ChatState)
  : ChatState * option Session.t :=
  match r with
  | Resolved session =>
      (mkChatState (session :: sessions st) (Some (Session.id session))
         (<[Session.id session := []]> (sessionMessages st))
         (isLoadingSessions st) (isLoadingMessages st) (isSending st) (isGeneratingTitle st)
         (streamingContent st) (currentPhase st) (error st),
       Some session)
  | Rejected e =>
      (mkChatState (sessions st) (currentSessionId st) (sessionMessages st)
         (isLoadingSessions st) (isLoadingMessages st) (isSending st) (isGeneratingTitle st)
         (streamingContent st) (currentPhase st)
         (Some (error_message e "Failed to create session")),
       None)
  end.

(** [selectSession], up to its [await]: an entry of the cache (an array,
    always truthy) makes [sessionId] current at once. *)
Definition selectSession_begin (sessionId : string) (st : ChatState) : ChatState :=
  mkChatState (sessions st)
    (match sessionMessages st !! sessionId with
     | Some _ => Some sessionId
     | None => currentSessionId st
     end)
    (sessionMessages st)
    (isLoadingSessions st) true (isSending st) (isGeneratingTitle st)
    (streamingContent st) None None.

(** [selectSession], after its [await], on the state of that moment.  The
    spread [{ ...s, ...session }] also copies the response's [messages]
    property onto the list entry; it is no field of [Session] and is left
    out. *)
Definition selectSession_resolve (sessionId : string) (r : Reply SessionDetail)
    (st : ChatState) : ChatState :=
  match r with
  | Resolved session =>
      mkChatState
        (map (fun s => if String.eqb (Session.id s) sessionId
                       then Session.spread s (detail_fields session) else s)
             (sessions st))
        (Some sessionId)
        (<[sessionId := default [] (detail_messages session)]> (sessionMessages st))
        (isLoadingSessions st) false (isSending st) (isGeneratingTitle st)
        (streamingContent st) (currentPhase st) (error st)
  | Rejected e =>
      mkChatState (sessions st) (currentSessionId st) (sessionMessages st)
        (isLoadingSessions st) false (isSending st) (isGeneratingTitle st)
        (streamingContent st) (currentPhase st)
        (Some (error_message e "Failed to load session"))
  end.

(** [state.currentSessionId === sessionId ? null : state.currentSessionId] *)
Definition clear_if_current (sessionId : string) (cur : option string) : option string :=
  match cur with
  | Some c => if String.eqb c sessionId then None else Some c
  | None => None
  end.

(** [state.sessions.filter((s) => s.id !== sessionId)] *)
Definition remove_session (sessionId : string) (l : list Session.t) : list Session.t :=
  List.filter (fun s => negb (String.eqb (Session.id s) sessionId)) l.

(** [deleteSession], after its [await]. *)
Definition deleteSession (sessionId : string) (r : Reply unit) (st : ChatState) : ChatState :=
  match r with
  | Resolved _ =>
      mkChatState (remove_session sessionId (sessions st))
        (clear_if_current sessionId (currentSessionId st))
        (delete sessionId (sessionMessages st))
        (isLoadingSessions st) (isLoadingMessages st) (isSending st) (isGeneratingTitle st)
        (streamingContent st) (currentPhase st) (error st)
  | Rejected e =>
      mkChatState (sessions st) (currentSessionId st) (sessionMessages st)
        (isLoadingSessions st) (isLoadingMessages st) (isSending st) (isGeneratingTitle st)
        (streamingContent st) (currentPhase st)
        (Some (error_message e "Failed to delete session"))
  end.

(** [updateSession], after its [await]. *)
Definition updateSession (sessionId : string) (r : Reply Session.partial)
    (st : ChatState) : ChatState :=
  match r with
  | Resolved updatedSession =>
      mkChatState
        (map (fun s => if String.eqb (Session.id s) sessionId
                       then Session.spread s updatedSession else s)
             (sessions st))
        (currentSessionId st) (sessionMessages st)
        (isLoadingSessions st) (isLoadingMessages st) (isSending st) (isGeneratingTitle st)
        (streamingContent st) (currentPhase st) (error st)
  | Rejected e =>
      mkChatState (sessions st) (currentSessionId st) (sessionMessages st)
        (isLoadingSessions st) (isLoadingMessages st) (isSending st) (isGeneratingTitle st)
        (streamingContent st) (currentPhase st)
        (Some (error_message e "Failed to update session"))
  end.

(** The comparator of [togglePinSession]: pinned first, then by
    [updated_at], newest first. *)
Definition compare_sessions (a b : Session.t) : Z :=
  if negb (Bool.eqb (Session.is_pinned a) (Session.is_pinned b))
  then (if Session.is_pinned a then -1 else 1)%Z
  else (Date_getTime (Session.updated_at b) - Date_getTime (Session.updated_at a))%Z.

(** [togglePinSession], after its [await]; the reply is
    [response.data.is_pinned]. *)
Definition togglePinSession (sessionId : string) (r : Reply bool) (st : ChatState) : ChatState :=
  match r with
  | Resolved pinned =>
      mkChatState
        (JSArray.sort compare_sessions
           (map (fun s => if String.eqb (Session.id s) sessionId
                          then Session.set_is_pinned pinned s else s)
                (sessions st)))
        (currentSessionId st) (sessionMessages st)
        (isLoadingSessions st) (isLoadingMessages st) (isSending st) (isGeneratingTitle st)
        (streamingContent st) (currentPhase st) (error st)
  | Rejected e =>
      mkChatState (sessions st) (currentSessionId st) (sessionMessages st)
        (isLoadingSessions st) (isLoadingMessages st) (isSending st) (isGeneratingTitle st)
        (streamingContent st) (currentPhase st)
        (Some (error_message e "Failed to pin session"))
  end.

(** [archiveSession], after its [await]. *)
Definition archiveSession (sessionId : string) (r : Reply unit) (st : ChatState) : ChatState :=
  match r with
  | Resolved _ =>
      mkChatState (remove_session sessionId (sessions st))
        (clear_if_current sessionId (currentSessionId st))
        (sessionMessages st)
        (isLoadingSessions st) (isLoadingMessages st) (isSending st) (isGeneratingTitle st)
        (streamingContent st) (currentPhase st) (error st)
  | Rejected e =>
      mkChatState (sessions st) (currentSessionId st) (sessionMessages st)
        (isLoadingSessions st) (isLoadingMessages st) (isSending st) (isGeneratingTitle st)
        (streamingContent st) (currentPhase st)
        (Some (error_message e "Failed to archive session"))
  end.

(** [generateSessionTitle], up to its [await]. *)
Definition generateSessionTitle_begin (st : ChatState) : ChatState :=
  mkChatState (sessions st) (currentSessionId st) (sessionMessages st)
    (isLoadingSessions st) (isLoadingMessages st) (isSending st) true
    (streamingContent st) (currentPhase st) (error st).

(** [generateSessionTitle], after its [await]. *)
Definition generateSessionTitle_resolve (sessionId : string) (r : Reply TitleReply)
    (st : ChatState) : ChatState :=
  match r with
  | Resolved data =>
      mkChatState
        (map (fun s => if String.eqb (Session.id s) sessionId
                       then Session.set_title_description
                              (reply_title data) (reply_description data) s
                       else s)
             (sessions st))
        (currentSessionId st) (sessionMessages st)
        (isLoadingSessions st) (isLoadingMessages st) (isSending st) false
        (streamingContent st) (currentPhase st) (error st)
  | Rejected _ =>
      mkChatState (sessions st) (currentSessionId st) (sessionMessages st)
        (isLoadingSessions st) (isLoadingMessages st) (isSending st) false
        (streamingContent st) (currentPhase st) (error st)
  end.

End Registry.


(** ** Streaming ingestion: [sendMessage] *)

(** The events of the stream protocol, as the handler reads them off a
    parsed frame: [data.event] and the field of [data.data] it uses.  The
    fields are strings, as the backend sends them. *)
Inductive StreamEvent :=
| EvMessage (chunk : string)
| EvPhase (phase : string)
| EvDone (assistant_message_id : string)
| EvError (message : string).

(** The local variables of the read loop: [let streamedContent = ''] and
    [let finalMessageId = '']. *)
Record StreamLocals := mkStreamLocals {
  streamedContent : string;
  finalMessageId : string
}.

Definition initial_locals : StreamLocals := mkStreamLocals EmptyString EmptyString.

(** What [sendMessage] leaves scheduled when it returns. *)
Inductive Effect :=
| SetTimeout_generateSessionTitle (sessionId : string) (delay : Z)
| Pending_fetchSessions.

(** [const messages = [...old]; const lastMessage = messages[messages.length - 1];
    if (lastMessage?.isStreaming) { <f lastMessage> }]: the copy of the
    array with [f] applied to its last element when that element is
    streaming.  (The source mutates the element in place; the array of the
    superseded state is its only other holder.) *)
Fixpoint update_streaming_last (f : Message.t -> Message.t) (messages : list Message.t)
  : list Message.t :=
  match messages with
  | [] => []
  | [lastMessage] => [if Message.streaming lastMessage then f lastMessage else lastMessage]
  | m :: rest => m :: update_streaming_last f rest
  end.

(** The provisional user message and the assistant placeholder. *)
Definition userMessage (content : string) (now : N) (iso : string) : Message.t :=
  Message.mk ("temp-" ++ JS.number_to_string now) user content None None iso None.

Definition assistantMessage (now : N) (iso : string) : Message.t :=
  Message.mk ("temp-assistant-" ++ JS.number_to_string now) assistant EmptyString None None iso
    (Some true).

(** The clock readings of one send: [Date.now()] and
    [new Date().toISOString()], for the user message and for the
    placeholder. *)
Record Clock := mkClock {
  now_user : N;
  iso_user : string;
  now_assistant : N;
  iso_assistant : string
}.

(** The first [set] of [sendMessage]: both provisional messages are
    appended to the session's sequence. *)
Definition send_begin (sessionId content : string) (clock : Clock) (st : ChatState)
  : ChatState :=
  mkChatState (sessions st) (currentSessionId st)
    (<[sessionId := (getSessionMessages st sessionId
                      ++ [userMessage content (now_user clock) (iso_user clock);
                          assistantMessage (now_assistant clock) (iso_assistant clock)])%list]>
       (sessionMessages st))
    (isLoadingSessions st) (isLoadingMessages st) true (isGeneratingTitle st)
    EmptyString (Some "thinking") None.

(** The body of the [try] for one parsed frame. *)
Definition apply_event (sessionId : string) (ev : StreamEvent)
    (s : StreamLocals * ChatState) : StreamLocals * ChatState :=
  let (loc, st) := s in
  match ev with
  | EvMessage chunk =>
      let streamed := streamedContent loc ++ chunk in
      (mkStreamLocals streamed (finalMessageId loc),
       mkChatState (sessions st) (currentSessionId st)
         (<[sessionId := update_streaming_last (Message.set_content streamed)
                           (getSessionMessages st sessionId)]>
            (sessionMessages st))
         (isLoadingSessions st) (isLoadingMessages st) (isSending st) (isGeneratingTitle st)
         streamed (currentPhase st) (error st))
  | EvPhase phase =>
      (loc,
       mkChatState (sessions st) (currentSessionId st) (sessionMessages st)
         (isLoadingSessions st) (isLoadingMessages st) (isSending st) (isGeneratingTitle st)
         (streamingContent st) (Some phase) (error st))
  | EvDone assistant_message_id =>
      (mkStreamLocals (streamedContent loc) assistant_message_id, st)
  | EvError message =>
      (loc,
       mkChatState (sessions st) (currentSessionId st) (sessionMessages st)
         (isLoadingSessions st) (isLoadingMessages st) (isSending st) (isGeneratingTitle st)
         (streamingContent st) (currentPhase st) (Some message))
  end.

(** The events of a stream applied in arrival order. *)
Definition apply_events (sessionId : string) (evs : list StreamEvent)
    (s : StreamLocals * ChatState) : StreamLocals * ChatState :=
  fold_left (fun s ev => apply_event sessionId ev s) evs s.

(** The [set] after the read loop: the trailing streaming message is
    finalized. *)
Definition finalize (sessionId : string) (loc : StreamLocals) (st : ChatState) : ChatState :=
  mkChatState (sessions st) (currentSessionId st)
    (<[sessionId := update_streaming_last
                      (fun lastMessage =>
                         let m := Message.set_isStreaming false lastMessage in
                         if JS.truthy (finalMessageId loc)
                         then Message.set_id (finalMessageId loc) m else m)
                      (getSessionMessages st sessionId)]>
       (sessionMessages st))
    (isLoadingSessions st) (isLoadingMessages st) false (isGeneratingTitle st)
    (streamingContent st) None (error st).

(** [if (currentMessages.length <= 2) setTimeout(() => generateSessionTitle(sessionId), 500)] *)
Definition title_effects (sessionId : string) (st : ChatState) : list Effect :=
  if (length (getSessionMessages st sessionId) <=? 2)%nat
  then [SetTimeout_generateSessionTitle sessionId 500]
  else [].

(** The [catch] of [sendMessage]: the messages with a temporary identifier
    are removed. *)
Definition rollback (sessionId : string) (e : Thrown) (st : ChatState) : ChatState :=
  mkChatState (sessions st) (currentSessionId st)
    (<[sessionId := List.filter (fun m => negb (JS.startsWith (Message.id m) "temp-"))
                      (getSessionMessages st sessionId)]>
       (sessionMessages st))
    (isLoadingSessions st) (isLoadingMessages st) false (isGeneratingTitle st)
    (streamingContent st) None (Some (error_message e "Failed to send message")).

(** The end of the [try] once the body is read to its end: finalization,
    the title generation when the session holds at most two messages, and
    the call of [fetchSessions], which runs up to its [await] at once. *)
Definition complete (sessionId : string) (s : StreamLocals * ChatState)
  : ChatState * list Effect :=
  let (loc, st) := s in
  let st' := finalize sessionId loc st in
  (fetchSessions_begin st',
   (title_effects sessionId st' ++ [Pending_fetchSessions])%list).

(** How the response body ends: [reader.read()] reports [done], or
    throws. *)
Inductive BodyEnd :=
| EndOfStream
| ReadThrows (e : Thrown).

(** What the transport does for one send.  [RequestThrows]: reading the
    token or [fetch] throws; [ResponseNotOk]: [!response.ok];
    [NoReader]: no body reader; [Body reads close]: the texts the
    successive reads decode to, and how the body ends. *)
Inductive Transport :=
| RequestThrows (e : Thrown)
| ResponseNotOk
| NoReader
| Body (reads : list string) (close : BodyEnd).

Section Decoder.

(** The reading of a frame's payload: [JSON.parse(payload)] followed by the
    reads of [data.event] and of the field of [data.data]; [None] in every
    case in which the [try] block leaves store and locals untouched (the
    parse throws, [data.data] is missing, or the event is none of the
    four). *)
Variable parse_frame : string -> option StreamEvent.

(** One iteration of [for (const line of lines)]. *)
Definition handle_line (sessionId : string) (s : StreamLocals * ChatState) (line : string)
  : StreamLocals * ChatState :=
  if JS.startsWith line "data: " then
    match parse_frame (JS.slice 6 line) with
    | Some ev => apply_event sessionId ev s
    | None => s
    end
  else s.

(** One iteration of the read loop: [chunk.split('\n')], then every line. *)
Definition handle_chunk (sessionId : string) (s : StreamLocals * ChatState) (chunk : string)
  : StreamLocals * ChatState :=
  fold_left (handle_line sessionId) (JS.split_newline chunk) s.

(** The read loop over the texts of the successive reads. *)
Definition read_loop (sessionId : string) (reads : list string)
    (s : StreamLocals * ChatState) : StreamLocals * ChatState :=
  fold_left (handle_chunk sessionId) reads s.

(** The events the loop decodes from one line, one read, and all reads. *)
Definition decode_line (line : string) : list StreamEvent :=
  if JS.startsWith line "data: " then
    match parse_frame (JS.slice 6 line) with
    | Some ev => [ev]
    | None => []
    end
  else [].

Definition decode_chunk (chunk : string) : list StreamEvent :=
  flat_map decode_line (JS.split_newline chunk).

Definition decode_reads (reads : list string) : list StreamEvent :=
  flat_map decode_chunk reads.

(** [if (!sessionId)]: no current session, or the empty identifier. *)
Definition no_session (cur : option string) : bool :=
  match cur with
  | Some sid => negb (JS.truthy sid)
  | None => true
  end.

(** One send, run without another action in between.  [create] is what
    [createSession] is answered, used only when there is no current
    session. *)
Definition sendMessage (content : string) (create : Reply Session.t) (clock : Clock)
    (transport : Transport) (st : ChatState) : ChatState * list Effect :=
  let target :=
    if no_session (currentSessionId st) then
      match createSession_resolve create (createSession_begin st) with
      | (st', Some session) => (st', Some (Session.id session))
      | (st', None) => (st', None)
      end
    else (st, currentSessionId st) in
  match target with
  | (st0, None) => (st0, [])
  | (st0, Some sessionId) =>
      let st1 := send_begin sessionId content clock st0 in
      match transport with
      | RequestThrows e => (rollback sessionId e st1, [])
      | ResponseNotOk => (rollback sessionId (ThrownError "Stream request failed") st1, [])
      | NoReader => (rollback sessionId (ThrownError "No reader available") st1, [])
      | Body reads close =>
          let (loc, st2) := read_loop sessionId reads (initial_locals, st1) in
          match close with
          | ReadThrows e => (rollback sessionId e st2, [])
          | EndOfStream => complete sessionId (loc, st2)
          end
      end
  end.

End Decoder.


(** ** Sequences of registry operations *)

(** One of the three list operations, with what its remote call is
    answered. *)
Inductive RegistryOp :=
| OpTogglePin (sessionId : string) (r : Reply bool)
| OpArchive (sessionId : string) (r : Reply unit)
| OpDelete (sessionId : string) (r : Reply unit).

Section RegistryRuns.

Variable Date_getTime : string -> Z.

Definition run_op (st : ChatState) (op : RegistryOp) : ChatState :=
  match op with
  | OpTogglePin sessionId r => togglePinSession Date_getTime sessionId r st
  | OpArchive sessionId r => archiveSession sessionId r st
  | OpDelete sessionId r => deleteSession sessionId r st
  end.

Definition run_ops (ops : list RegistryOp) (st : ChatState) : ChatState :=
  fold_left run_op ops st.


(** The pin/recency rule between an entry [a] and a later entry [b]: a
    pinned entry never follows a non-pinned one, and within a block the
    later entry is not newer. *)
Definition pin_recency (a b : Session.t) : Prop :=
  (Session.is_pinned b = true -> Session.is_pinned a = true) /\
  (Session.is_pinned a = Session.is_pinned b ->
   (Date_getTime (Session.updated_at b) <= Date_getTime (Session.updated_at a))%Z).

(** Pinned sessions precede the others, each block by descending
    [updated_at]. *)
Definition registry_ordered (l : list Session.t) : Prop :=
  StronglySorted pin_recency l.


End RegistryRuns.

(** ** The line decoder the specification asks for *)

Section BufferedDecoder.

Variable parse_frame : string -> option StreamEvent.

(** Follows the specification's words (section 4.3, chunk/byte boundary
    handling), to be compared with [decode_reads]: the undecoded trailing
    text is kept across reads, and only complete lines are parsed. *)
Fixpoint buffered_decode (pending : string) (reads : list string) : list StreamEvent :=
  match reads with
  | [] => []
  | chunk :: reads' =>
      let pieces := JS.split_newline (pending ++ chunk) in
      (flat_map (decode_line parse_frame) (removelast pieces)
         ++ buffered_decode (List.last pieces EmptyString) reads')%list
  end.

End BufferedDecoder.

(** The text of a response body: its reads, joined. *)
Definition body_text (reads : list string) : string :=
  fold_right String.append EmptyString reads.

(** A read that ends at a line boundary: its last piece is empty. *)
Definition line_aligned (chunk : string) : Prop :=
  List.last (JS.split_newline chunk) EmptyString = EmptyString.

(** ** An instance of the frame reader *)

(** The frames of the compact form,
    [{"event":"<tag>","data":{"<field>":"<text>"}}] with a plain [text]
    (no quote, no backslash, no control character): the reading of
    [JSON.parse] on them, used to run the loop on concrete reads. *)
Module CompactFrame.

Definition quote : string := String "034"%char EmptyString.

(** The payload text of a frame. *)
Definition payload (tag field text : string) : string :=
  "{" ++ quote ++ "event" ++ quote ++ ":" ++ quote ++ tag ++ quote ++ ","
      ++ quote ++ "data" ++ quote ++ ":{" ++ quote ++ field ++ quote ++ ":"
      ++ quote ++ text ++ quote ++ "}}".

(** The line of a frame, with its line feed. *)
Definition frame (tag field text : string) : string :=
  "data: " ++ payload tag field text ++ String JS.newline EmptyString.

Fixpoint strip_prefix (p s : string) {struct p} : option string :=
  match p, s with
  | EmptyString, _ => Some s
  | String c p', String d s' => if Ascii.eqb c d then strip_prefix p' s' else None
  | String _ _, EmptyString => None
  end.

Definition plain_char (c : ascii) : bool :=
  negb (Ascii.eqb c "034"%char) && negb (Ascii.eqb c "092"%char)
  && (32 <=? nat_of_ascii c)%nat.

(** The text up to the closing quote, and what follows the quote. *)
Fixpoint read_text (s : string) : option (string * string) :=
  match s with
  | EmptyString => None
  | String c s' =>
      if Ascii.eqb c "034"%char then Some (EmptyString, s')
      else if plain_char c then
        match read_text s' with
        | Some (text, rest) => Some (String c text, rest)
        | None => None
        end
      else None
  end.

Definition read_as (tag field : string) (mk : string -> StreamEvent) (s : string)
  : option StreamEvent :=
  match strip_prefix ("{" ++ quote ++ "event" ++ quote ++ ":" ++ quote ++ tag ++ quote ++ ","
                        ++ quote ++ "data" ++ quote ++ ":{" ++ quote ++ field ++ quote ++ ":"
                        ++ quote) s with
  | Some s' =>
      match read_text s' with
      | Some (text, rest) => if String.eqb rest "}}" then Some (mk text) else None
      | None => None
      end
  | None => None
  end.

Definition parse (s : string) : option StreamEvent :=
  match read_as "message" "chunk" EvMessage s with
  | Some ev => Some ev
  | None =>
  match read_as "phase" "phase" EvPhase s with
  | Some ev => Some ev
  | None =>
  match read_as "done" "assistant_message_id" EvDone s with
  | Some ev => Some ev
  | None => read_as "error" "message" EvError s
  end end end.

End CompactFrame.


(** ** What a sequence of events amounts to *)

(** The fragments of the [message] events, concatenated in arrival order. *)
Fixpoint streamed_text (evs : list StreamEvent) : string :=
  match evs with
  | [] => EmptyString
  | EvMessage chunk :: evs' => chunk ++ streamed_text evs'
  | _ :: evs' => streamed_text evs'
  end.

(** The label of the last [phase] event, [phase0] when there is none. *)
Fixpoint last_phase (phase0 : option string) (evs : list StreamEvent) : option string :=
  match evs with
  | [] => phase0
  | EvPhase phase :: evs' => last_phase (Some phase) evs'
  | _ :: evs' => last_phase phase0 evs'
  end.

(** The message of the last [error] event, [error0] when there is none. *)
Fixpoint last_error (error0 : option string) (evs : list StreamEvent) : option string :=
  match evs with
  | [] => error0
  | EvError message :: evs' => last_error (Some message) evs'
  | _ :: evs' => last_error error0 evs'
  end.

(** The identifier of the last [done] event, [id0] when there is none. *)
Fixpoint last_done (id0 : string) (evs : list StreamEvent) : string :=
  match evs with
  | [] => id0
  | EvDone assistant_message_id :: evs' => last_done assistant_message_id evs'
  | _ :: evs' => last_done id0 evs'
  end.

(** The number of messages of a sequence whose streaming flag is set. *)
Definition streaming_count (messages : list Message.t) : nat :=
  length (List.filter Message.streaming messages).

(** ** Sample data *)

Module Sample.

(** [new Date(s).getTime()] on the timestamps of the sample sessions. *)
Definition getTime (s : string) : Z :=
  if String.eqb s "2024-05-02T10:00:00Z" then 1714644000000
  else if String.eqb s "2024-05-01T10:00:00Z" then 1714557600000
  else 0.

Definition session (id : string) (pinned : bool) (updated_at : string) : Session.t :=
  Session.mk id "New Chat" None "gpt-4o" false pinned [] 0
    "2024-05-01T10:00:00Z" updated_at None None.

(** A persisted message, as the server returns it. *)
Definition message (id : string) (r : Role) (content : string) : Message.t :=
  Message.mk id r content None None "2024-05-01T10:00:00Z" None.

(** A store with one pinned and two other sessions, [s1] current, with an
    empty sequence cached for [s1] and two messages cached for [s2]. *)
Definition store : ChatState :=
  mkChatState
    [session "s3" true "2024-05-01T10:00:00Z";
     session "s1" false "2024-05-02T10:00:00Z";
     session "s2" false "2024-05-01T10:00:00Z"]
    (Some "s1")
    (<["s1" := []]>
       (<["s2" := [message "m-1" user "ping"; message "m-2" assistant "pong"]]> ∅))
    false false false false EmptyString None None.

Definition clock : Clock :=
  mkClock 1714644000123 "2024-05-02T10:00:00.123Z" 1714644000124 "2024-05-02T10:00:00.124Z".

Definition clock' : Clock :=
  mkClock 1714644060500 "2024-05-02T10:01:00.500Z" 1714644060500 "2024-05-02T10:01:00.500Z".

(** The events of the scenario of the specification (section 8). *)
Definition scenario_events : list StreamEvent :=
  [EvMessage "H"; EvMessage "He"; EvMessage "Hello"; EvPhase "responding"; EvDone "m-42"].

(** The same events as frames, one read each. *)
Definition scenario_reads : list string :=
  [CompactFrame.frame "message" "chunk" "H";
   CompactFrame.frame "message" "chunk" "He";
   CompactFrame.frame "message" "chunk" "Hello";
   CompactFrame.frame "phase" "phase" "responding";
   CompactFrame.frame "done" "assistant_message_id" "m-42"].

(** What the session's detail request is answered in the samples. *)
Definition detail : SessionDetail :=
  mkSessionDetail
    (Session.mkPartial (Some "s2") (Some "Ping") None None None None None (Some 42%Z)
       None (Some "2024-05-02T10:00:00Z") None None)
    (Some [message "m-1" user "ping"; message "m-2" assistant "pong";
           message "m-3" user "more"]).

(** One [message] frame, whole and cut in the middle of its line. *)
Definition whole_frame : string := CompactFrame.frame "message" "chunk" "Hi".

Definition first_half : string :=
  "data: {" ++ CompactFrame.quote ++ "event" ++ CompactFrame.quote ++ ":"
    ++ CompactFrame.quote ++ "mess".

Definition second_half : string :=
  "age" ++ CompactFrame.quote ++ "," ++ CompactFrame.quote ++ "data" ++ CompactFrame.quote
    ++ ":{" ++ CompactFrame.quote ++ "chunk" ++ CompactFrame.quote ++ ":"
    ++ CompactFrame.quote ++ "Hi" ++ CompactFrame.quote ++ "}}"
    ++ String JS.newline EmptyString.

End Sample.

(** ** The remaining actions of the chat store *)

(** [clearError] *)
Definition clearError (st : ChatState) : ChatState :=
  mkChatState (sessions st) (currentSessionId st) (sessionMessages st)
    (isLoadingSessions st) (isLoadingMessages st) (isSending st) (isGeneratingTitle st)
    (streamingContent st) (currentPhase st) None.

(** [getCurrentSession]: [sessions.find(s => s.id === currentSessionId) || null];
    no identifier is [=== null]. *)
Definition getCurrentSession (st : ChatState) : option Session.t :=
  match currentSessionId st with
  | Some cur => List.find (fun s => String.eqb (Session.id s) cur) (sessions st)
  | None => None
  end.

(** [exportSession], after its [await]: the next state and what the caller
    gets (the payload, or the error thrown again). *)
Definition exportSession {A : Type} (r : Reply A) (st : ChatState) : ChatState * Reply A :=
  match r with
  | Resolved data => (st, Resolved data)
  | Rejected e =>
      (mkChatState (sessions st) (currentSessionId st) (sessionMessages st)
         (isLoadingSessions st) (isLoadingMessages st) (isSending st) (isGeneratingTitle st)
         (streamingContent st) (currentPhase st)
         (Some (error_message e "Failed to export session")),
       Rejected e)
  end.

(** [partialize] of the chat store: what is persisted. *)
Definition partialize (st : ChatState) : option string := currentSessionId st.

(** ** The page's guards around the store (pages/ChatPage.tsx) *)

(** The effect of [ChatPage] on a change of the route's [sessionId]:
    [if (sessionId && sessionId !== currentSessionId) selectSession(sessionId)];
    the result is the identifier [selectSession] is called with. *)
Definition page_selects (route : option string) (st : ChatState) : option string :=
  match route with
  | Some sessionId =>
      if JS.truthy sessionId
      then match currentSessionId st with
           | Some cur => if String.eqb sessionId cur then None else Some sessionId
           | None => Some sessionId
           end
      else None
  | None => None
  end.

(** ** The auth store (frontend/src/stores/auth.ts) and the route guards *)

Module Auth.

(** [interface User] *)
Record User := mkUser {
  id : string;
  username : string;
  email : string;
  display_name : option string;
  avatar_url : option string
}.

(** [interface AuthState], the data part. *)
Record AuthState := mkAuthState {
  user : option User;
  accessToken : option string;
  refreshToken : option string;
  isAuthenticated : bool;
  isLoading : bool;
  error : option string
}.

Definition initial_state : AuthState := mkAuthState None None None false false None.

(** What a [catch] of [login] and [register] receives: an object with a
    [response] property, with what [response?.data?.detail] reads there
    (a text, or nothing), or any other value. *)
Inductive Failure :=
| WithResponse (detail : option string)
| WithoutResponse.

(** [let message = fallback;
     if (error && typeof error === 'object' && 'response' in error)
       message = axiosError.response?.data?.detail || message] *)
Definition failure_message (f : Failure) (fallback : string) : string :=
  match f with
  | WithResponse (Some detail) => if JS.truthy detail then detail else fallback
  | WithResponse None => fallback
  | WithoutResponse => fallback
  end.

(** What an awaited request delivers. *)
Inductive Outcome (A : Type) :=
| Done (a : A)
| Failed (f : Failure).
Arguments Done {A} a.
Arguments Failed {A} f.

(** [const { access_token, refresh_token } = response.data] *)
Record Tokens := mkTokens {
  access_token : string;
  refresh_token : string
}.

(** [login], run without another action in between: the state it leaves
    and the error it throws again, if any.  [tokens] answers the login
    request and [me] the profile request. *)
Definition login (tokens : Outcome Tokens) (me : Outcome User) (st : AuthState)
  : AuthState * option Failure :=
  let st1 := mkAuthState (user st) (accessToken st) (refreshToken st)
               (isAuthenticated st) true None in
  match tokens with
  | Failed f =>
      (mkAuthState (user st1) (accessToken st1) (refreshToken st1)
         (isAuthenticated st1) false (Some (failure_message f "Login failed")),
       Some f)
  | Done t =>
      let st2 := mkAuthState (user st1) (Some (access_token t)) (Some (refresh_token t))
                   true (isLoading st1) (error st1) in
      match me with
      | Failed f =>
          (mkAuthState (user st2) (accessToken st2) (refreshToken st2)
             (isAuthenticated st2) false (Some (failure_message f "Login failed")),
           Some f)
      | Done u =>
          (mkAuthState (Some u) (accessToken st2) (refreshToken st2)
             (isAuthenticated st2) false (error st2),
           None)
      end
  end.

(** The body [register] posts: [display_name] only for a truthy
    [displayName]. *)
Definition register_payload (username email password : string)
    (displayName : option string) : list (string * string) :=
  ([("username", username); ("email", email); ("password", password)]
     ++ match displayName with
        | Some d => if JS.truthy d then [("display_name", d)] else []
        | None => []
        end)%list.

(** [register], run without another action in between; [post] answers the
    registration request, [tokens] and [me] the requests of the login that
    follows. *)
Definition register (post : Outcome unit) (tokens : Outcome Tokens) (me : Outcome User)
    (st : AuthState) : AuthState * option Failure :=
  let st1 := mkAuthState (user st) (accessToken st) (refreshToken st)
               (isAuthenticated st) true None in
  let failed f (s : AuthState) :=
    (mkAuthState (user s) (accessToken s) (refreshToken s) (isAuthenticated s) false
       (Some (failure_message f "Registration failed")),
     Some f) in
  match post with
  | Failed f => failed f st1
  | Done _ =>
      match login tokens me st1 with
      | (st2, Some f) => failed f st2
      | (st2, None) => (st2, None)
      end
  end.

(** [logout] *)
Definition logout (st : AuthState) : AuthState :=
  mkAuthState None None None false (isLoading st) None.

(** [!token]: null or the empty text. *)
Definition missing (token : option string) : bool :=
  match token with
  | Some t => negb (JS.truthy t)
  | None => true
  end.

(** [refreshAuth]; [reply] answers the refresh request. *)
Definition refreshAuth (reply : Outcome Tokens) (st : AuthState) : AuthState :=
  if missing (refreshToken st) then logout st
  else match reply with
       | Done t =>
           mkAuthState (user st) (Some (access_token t)) (Some (refresh_token t))
             (isAuthenticated st) (isLoading st) (error st)
       | Failed _ => logout st
       end.

(** [fetchUser]; [me] answers the profile request and [refresh] the refresh
    request made when the profile request fails. *)
Definition fetchUser (me : Outcome User) (refresh : Outcome Tokens) (st : AuthState)
  : AuthState :=
  if missing (accessToken st) then st
  else match me with
       | Done u =>
           mkAuthState (Some u) (accessToken st) (refreshToken st)
             (isAuthenticated st) (isLoading st) (error st)
       | Failed _ => refreshAuth refresh st
       end.

(** [clearError] *)
Definition clearError (st : AuthState) : AuthState :=
  mkAuthState (user st) (accessToken st) (refreshToken st) (isAuthenticated st)
    (isLoading st) None.

(** [partialize]: what is persisted. *)
Record Persisted := mkPersisted {
  saved_accessToken : option string;
  saved_refreshToken : option string;
  saved_user : option User;
  saved_isAuthenticated : bool
}.

Definition partialize (st : AuthState) : Persisted :=
  mkPersisted (accessToken st) (refreshToken st) (user st) (isAuthenticated st).

(** What a route guard of App.tsx renders. *)
Inductive Rendered :=
| Children
| NavigateTo (path : string).

(** [PrivateRoute] *)
Definition PrivateRoute (st : AuthState) : Rendered :=
  if isAuthenticated st then Children else NavigateTo "/login".

(** [PublicRoute] *)
Definition PublicRoute (st : AuthState) : Rendered :=
  if negb (isAuthenticated st) then Children else NavigateTo "/chat".

End Auth.

(** ** The grouping of the sidebar (components/Sidebar.tsx) *)

Module Sidebar.

(** [s.includes(q)] *)
Fixpoint includes (s q : string) : bool :=
  JS.startsWith s q
  || match s with
     | EmptyString => false
     | String _ s' => includes s' q
     end.

Section Groups.

(** [String.prototype.toLowerCase] *)
Variable toLowerCase : string -> string.

(** The callback of the search filter:
    [s.title.toLowerCase().includes(query) ||
     s.last_message_preview?.toLowerCase().includes(query)] *)
Definition matches (query : string) (s : Session.t) : bool :=
  includes (toLowerCase (Session.title s)) query
  || match Session.last_message_preview s with
     | Some preview => includes (toLowerCase preview) query
     | None => false
     end.

(** [filtered]: the list, or its search results for a non-empty query. *)
Definition filtered (searchQuery : string) (sessions : list Session.t) : list Session.t :=
  if JS.truthy searchQuery
  then List.filter (matches (toLowerCase searchQuery)) sessions
  else sessions.

Definition pinnedSessions (searchQuery : string) (sessions : list Session.t)
  : list Session.t :=
  List.filter (fun s => Session.is_pinned s) (filtered searchQuery sessions).

Definition recentSessions (searchQuery : string) (sessions : list Session.t)
  : list Session.t :=
  List.filter (fun s => negb (Session.is_pinned s)) (filtered searchQuery sessions).

End Groups.

End Sidebar.

(** ** The validation of the forms (pages/RegisterPage.tsx, pages/LoginPage.tsx) *)

Module Form.

(** A JavaScript string as the sequence of its UTF-16 code units; [length]
    is [s.length]. *)
Definition code_unit := N.

(** The class [\s]: the white space and line terminator code points of
    ECMAScript. *)
Definition is_whitespace (c : code_unit) : bool :=
  existsb (N.eqb c)
    [9; 10; 11; 12; 13; 32; 160; 5760; 8232; 8233; 8239; 8287; 12288; 65279]%N
  || ((8192 <=? c)%N && (c <=? 8202)%N).

Definition at_sign : code_unit := 64%N.
Definition full_stop : code_unit := 46%N.

(** The patterns the forms use: classes, sequence and repetition. *)
Inductive regex :=
| Never
| Empty
| Class (p : code_unit -> bool)
| Seq (r1 r2 : regex)
| Alt (r1 r2 : regex)
| Star (r : regex).

(** [r+] *)
Definition Plus (r : regex) : regex := Seq r (Star r).

(** The texts a pattern matches from end to end. *)
Inductive Matches : regex -> list code_unit -> Prop :=
| MEmpty : Matches Empty []
| MClass (p : code_unit -> bool) (c : code_unit) : p c = true -> Matches (Class p) [c]
| MSeq (r1 r2 : regex) (s1 s2 : list code_unit) :
    Matches r1 s1 -> Matches r2 s2 -> Matches (Seq r1 r2) (s1 ++ s2)
| MAltL (r1 r2 : regex) (s : list code_unit) : Matches r1 s -> Matches (Alt r1 r2) s
| MAltR (r1 r2 : regex) (s : list code_unit) : Matches r2 s -> Matches (Alt r1 r2) s
| MStarEnd (r : regex) : Matches (Star r) []
| MStarMore (r : regex) (s1 s2 : list code_unit) :
    Matches r s1 -> Matches (Star r) s2 -> Matches (Star r) (s1 ++ s2).

Fixpoint nullable (r : regex) : bool :=
  match r with
  | Never => false
  | Empty => true
  | Class _ => false
  | Seq r1 r2 => nullable r1 && nullable r2
  | Alt r1 r2 => nullable r1 || nullable r2
  | Star _ => true
  end.

(** What is left of a pattern after the code unit [c]. *)
Fixpoint derive (c : code_unit) (r : regex) : regex :=
  match r with
  | Never => Never
  | Empty => Never
  | Class p => if p c then Empty else Never
  | Seq r1 r2 =>
      Alt (Seq (derive c r1) r2) (if nullable r1 then derive c r2 else Never)
  | Alt r1 r2 => Alt (derive c r1) (derive c r2)
  | Star r' => Seq (derive c r') (Star r')
  end.

(** [/^r$/.test(s)] *)
Definition test (r : regex) (s : list code_unit) : bool :=
  nullable (fold_left (fun r c => derive c r) s r).

(** [[^\s@]] *)
Definition plain (c : code_unit) : bool :=
  negb (is_whitespace c || N.eqb c at_sign).

(** [/^[^\s@]+@[^\s@]+\.[^\s@]+$/] *)
Definition email_pattern : regex :=
  Seq (Plus (Class plain))
    (Seq (Class (N.eqb at_sign))
       (Seq (Plus (Class plain))
          (Seq (Class (N.eqb full_stop)) (Plus (Class plain))))).

(** [isValid] of the registration form. *)
Definition register_isValid (username email password : list code_unit) : bool :=
  (3 <=? length username)%nat && test email_pattern email
  && (6 <=? length password)%nat.

(** [isValid] of the login form. *)
Definition login_isValid (username password : list code_unit) : bool :=
  (3 <=? length username)%nat && (6 <=? length password)%nat.

End Form.

(** ** More sample data *)

Module Fixture.

(** A session the server has just created. *)
Definition fresh : Session.t := Sample.session "s9" false "2024-05-02T10:00:00Z".

(** A store whose sequence for the current session [s2] holds two persisted
    messages. *)
Definition busy_store : ChatState :=
  mkChatState (sessions Sample.store) (Some "s2") (sessionMessages Sample.store)
    false false false false EmptyString None None.

End Fixture.

(** ** A stream with other actions in between *)

(** What happens between the start of a send and the end of its stream:
    an event of the stream is applied, or another action of the store
    performs a [set] ([act], any change of the state; the locals of the
    read loop are out of its reach). *)
Inductive StreamStep :=
| StepEvent (ev : StreamEvent)
| StepOther (act : ChatState -> ChatState).

Definition stream_step (sessionId : string) (s : StreamLocals * ChatState)
    (step : StreamStep) : StreamLocals * ChatState :=
  match step with
  | StepEvent ev => apply_event sessionId ev s
  | StepOther act => (fst s, act (snd s))
  end.

Definition run_stream (sessionId : string) (steps : list StreamStep)
    (s : StreamLocals * ChatState) : StreamLocals * ChatState :=
  fold_left (stream_step sessionId) steps s.


(** ** What a sequence of registry operations does to the pins *)



(** A step that leaves the sequence of [sessionId] as it is: every event
    of the stream counts (what events do to the sequence is the stream's
    own doing), and another action counts when its [set] does not change
    the cache entry of [sessionId]. *)
Definition keeps_sequence (sessionId : string) (step : StreamStep) : Prop :=
  match step with
  | StepEvent _ => True
  | StepOther act =>
      forall st, sessionMessages (act st) !! sessionId = sessionMessages st !! sessionId
  end.

(** * Properties *)

(** ** Helper facts on lists and on the stable sort *)

Lemma remove_session_spec (sessionId : string) (l : list Session.t) (s : Session.t) :
  In s (remove_session sessionId l) <-> In s l /\ Session.id s <> sessionId.
Proof.
  unfold remove_session. rewrite filter_In, negb_true_iff.
  split; intros [Hin Hne]; split; auto.
  - intros Heq. apply String.eqb_eq in Heq. congruence.
  - apply String.eqb_neq. exact Hne.
Qed.

Lemma filter_all {A : Type} (f : A -> bool) (l : list A) :
  Forall (fun x => f x = true) l -> List.filter f l = l.
Proof.
  induction 1 as [|x l Hx Hl IH]; [reflexivity|].
  cbn [List.filter]. now rewrite Hx, IH.
Qed.


Section SortFacts.

Context {A : Type} (cmp : A -> A -> Z).

Let precedes (a b : A) : Prop := (cmp a b <= 0)%Z.

Hypothesis precedes_total : forall a b, precedes a b \/ precedes b a.
Hypothesis precedes_trans : forall a b c, precedes a b -> precedes b c -> precedes a c.

Lemma insert_Permutation (x : A) (l : list A) :
  Permutation (JSArray.insert cmp x l) (x :: l).
Proof.
  induction l as [|y l IH]; simpl; [reflexivity|].
  destruct (cmp x y <=? 0)%Z; [reflexivity|].
  rewrite IH. apply perm_swap.
Qed.

Lemma sort_Permutation (l : list A) : Permutation (JSArray.sort cmp l) l.
Proof.
  induction l as [|x l IH]; simpl; [reflexivity|].
  rewrite insert_Permutation. now constructor.
Qed.

Lemma insert_StronglySorted (x : A) (l : list A) :
  StronglySorted precedes l -> StronglySorted precedes (JSArray.insert cmp x l).
Proof.
  induction 1 as [|y l Hl IH Hy]; simpl.
  - constructor; constructor.
  - destruct (cmp x y <=? 0)%Z eqn:Hxy.
    + apply Z.leb_le in Hxy.
      constructor; [constructor; assumption|].
      constructor; [exact Hxy|].
      rewrite List.Forall_forall in *. intros z Hz.
      apply precedes_trans with y; [exact Hxy | apply Hy, Hz].
    + apply Z.leb_gt in Hxy.
      constructor; [exact IH|].
      rewrite List.Forall_forall in *. intros z Hz.
      apply (Permutation_in _ (insert_Permutation x l)) in Hz.
      destruct Hz as [<-|Hz]; [|apply Hy, Hz].
      destruct (precedes_total y x) as [H|H]; [exact H|].
      unfold precedes in H. lia.
Qed.

Lemma sort_StronglySorted (l : list A) : StronglySorted precedes (JSArray.sort cmp l).
Proof.
  induction l as [|x l IH]; simpl; [constructor|].
  apply insert_StronglySorted, IH.
Qed.

End SortFacts.

Section RegistryFacts.

Variable Date_getTime : string -> Z.

Lemma compare_sessions_rule (a b : Session.t) :
  (compare_sessions Date_getTime a b <= 0)%Z <-> pin_recency Date_getTime a b.
Proof.
  unfold compare_sessions, pin_recency.
  destruct (Session.is_pinned a), (Session.is_pinned b); simpl;
    split; try (intros H; split; intros; try congruence; lia);
    try (intros [H1 H2]; first [ specialize (H2 eq_refl); lia | lia
                                | specialize (H1 eq_refl); congruence ]).
Qed.

Lemma pin_recency_total (a b : Session.t) :
  (compare_sessions Date_getTime a b <= 0)%Z \/ (compare_sessions Date_getTime b a <= 0)%Z.
Proof.
  unfold compare_sessions.
  destruct (Session.is_pinned a), (Session.is_pinned b); simpl; lia.
Qed.

Lemma pin_recency_trans (a b c : Session.t) :
  (compare_sessions Date_getTime a b <= 0)%Z ->
  (compare_sessions Date_getTime b c <= 0)%Z ->
  (compare_sessions Date_getTime a c <= 0)%Z.
Proof.
  unfold compare_sessions.
  destruct (Session.is_pinned a), (Session.is_pinned b), (Session.is_pinned c);
    simpl; lia.
Qed.

Lemma sort_registry_ordered (l : list Session.t) :
  registry_ordered Date_getTime (JSArray.sort (compare_sessions Date_getTime) l).
Proof.
  unfold registry_ordered.
  pose proof (sort_StronglySorted (compare_sessions Date_getTime)
                pin_recency_total pin_recency_trans l) as H.
  induction H as [|a l' Hl IH Ha]; constructor; [exact IH|].
  eapply List.Forall_impl; [|exact Ha].
  intros b Hb. apply compare_sessions_rule, Hb.
Qed.

(** The identifiers of a list after one operation are among those before
    it. *)
Lemma run_op_ids (st : ChatState) (op : RegistryOp) (s : Session.t) :
  In s (sessions (run_op Date_getTime st op)) ->
  exists s0, In s0 (sessions st) /\ Session.id s0 = Session.id s
             /\ Session.is_archived s0 = Session.is_archived s.
Proof.
  destruct op as [sid [pinned|e] | sid [u|e] | sid [u|e]]; simpl; intros Hin;
    try (exists s; tauto).
  - apply (Permutation_in _ (sort_Permutation _ _)) in Hin.
    apply in_map_iff in Hin. destruct Hin as [s0 [Hs0 Hin]].
    exists s0. split; [exact Hin|].
    destruct (String.eqb (Session.id s0) sid); subst s; auto.
  - apply remove_session_spec in Hin. exists s. tauto.
  - apply remove_session_spec in Hin. exists s. tauto.
Qed.


Lemma run_ops_ids (ops : list RegistryOp) (st : ChatState) (s : Session.t) :
  In s (sessions (run_ops Date_getTime ops st)) ->
  exists s0, In s0 (sessions st) /\ Session.id s0 = Session.id s
             /\ Session.is_archived s0 = Session.is_archived s.
Proof.
  revert st. induction ops as [|op ops IH]; simpl; intros st Hin.
  - exists s. auto.
  - apply IH in Hin. destruct Hin as [s1 [Hin1 [Hid1 Har1]]].
    apply run_op_ids in Hin1. destruct Hin1 as [s0 [Hin0 [Hid0 Har0]]].
    exists s0. repeat split; congruence || assumption.
Qed.

End RegistryFacts.

(** ** The session list under pin, archive and delete *)




Section RegistryEntries.

Variable Date_getTime : string -> Z.




End RegistryEntries.


(** ** Selecting a session *)

(** C7.  When messages for [sessionId] are cached, [selectSession] makes it
    current at once; and when the refresh resolves, on whatever state the
    store is in by then, the fetched list is the cache entry of
    [sessionId], every other cache entry is as it was, and the session list
    keeps its length and positions: an entry with another identifier is
    untouched, and in an entry whose identifier is [sessionId] every field
    the response carries has the returned value and every other field its
    old value. *)
Theorem selectSession_cached_then_refreshed (sessionId : string) (session : SessionDetail)
    (st st' : ChatState) :
  is_Some (sessionMessages st !! sessionId) ->
  currentSessionId (selectSession_begin sessionId st) = Some sessionId
  /\ sessionMessages (selectSession_begin sessionId st) = sessionMessages st
  /\ sessionMessages (selectSession_resolve sessionId (Resolved session) st') !! sessionId
     = Some (default [] (detail_messages session))
  /\ (forall other, other <> sessionId ->
        sessionMessages (selectSession_resolve sessionId (Resolved session) st') !! other
        = sessionMessages st' !! other)
  /\ (forall i,
        sessions (selectSession_resolve sessionId (Resolved session) st') !! i
        = (fun s => if String.eqb (Session.id s) sessionId
                    then Session.spread s (detail_fields session) else s)
            <$> sessions st' !! i)
  /\ length (sessions (selectSession_resolve sessionId (Resolved session) st'))
     = length (sessions st')
  /\ (forall i s, sessions st' !! i = Some s ->
        exists s',
          sessions (selectSession_resolve sessionId (Resolved session) st') !! i = Some s'
          /\ (Session.id s <> sessionId -> s' = s)
          /\ (Session.id s = sessionId ->
                Session.id s'
                = default (Session.id s) (Session.p_id (detail_fields session))
                /\ Session.title s'
                   = default (Session.title s) (Session.p_title (detail_fields session))
                /\ Session.description s'
                   = default (Session.description s)
                       (Session.p_description (detail_fields session))
                /\ Session.model_name s'
                   = default (Session.model_name s)
                       (Session.p_model_name (detail_fields session))
                /\ Session.is_archived s'
                   = default (Session.is_archived s)
                       (Session.p_is_archived (detail_fields session))
                /\ Session.is_pinned s'
                   = default (Session.is_pinned s)
                       (Session.p_is_pinned (detail_fields session))
                /\ Session.tags s'
                   = default (Session.tags s) (Session.p_tags (detail_fields session))
                /\ Session.total_tokens_used s'
                   = default (Session.total_tokens_used s)
                       (Session.p_total_tokens_used (detail_fields session))
                /\ Session.created_at s'
                   = default (Session.created_at s)
                       (Session.p_created_at (detail_fields session))
                /\ Session.updated_at s'
                   = default (Session.updated_at s)
                       (Session.p_updated_at (detail_fields session))
                /\ Session.message_count s'
                   = default (Session.message_count s)
                       (Session.p_message_count (detail_fields session))
                /\ Session.last_message_preview s'
                   = default (Session.last_message_preview s)
                       (Session.p_last_message_preview (detail_fields session)))).
Proof.
  intros [msgs Hmsgs].
  split; [cbn; now rewrite Hmsgs|]. split; [reflexivity|].
  split; [cbn; apply lookup_insert_eq|].
  split; [intros other Hne; cbn; apply lookup_insert_ne; congruence|].
  split; [intros i; cbn; apply list_lookup_fmap|].
  split; [cbn; apply length_map|].
  intros i s Hs. cbn [selectSession_resolve sessions].
  eexists. split; [rewrite list_lookup_fmap, Hs; reflexivity|].
  destruct (String.eqb_spec (Session.id s) sessionId) as [Heq|Hne]; split;
    try congruence; try reflexivity.
  intros _. repeat split.
Qed.

(** C9.  A resolving refresh of [sessionId] makes [sessionId] current
    whatever the pointer is by then: after selecting [idA], then selecting
    [idB] and seeing its refresh resolve ([idB] is current), the late
    refresh of [idA] puts the pointer back to [idA]. *)
Theorem selectSession_late_refresh_moves_pointer (idA idB : string)
    (sessionA sessionB : SessionDetail) (st : ChatState) :
  (forall st', currentSessionId (selectSession_resolve idA (Resolved sessionA) st') = Some idA)
  /\ currentSessionId
       (selectSession_resolve idB (Resolved sessionB)
          (selectSession_begin idB (selectSession_begin idA st))) = Some idB
  /\ currentSessionId
       (selectSession_resolve idA (Resolved sessionA)
          (selectSession_resolve idB (Resolved sessionB)
             (selectSession_begin idB (selectSession_begin idA st)))) = Some idA.
Proof. repeat split. Qed.

(** ** Title generation *)

(** C8.  [generateSessionTitle] whose remote call fails clears the loading
    flag and leaves every other part of the state it finds as it is (the
    error slot, the session list and the message caches among them); on
    success the flag is cleared too, the entries whose identifier matches
    get the returned [title] and [description] and keep all their other
    fields, and nothing else changes. *)
Theorem generateSessionTitle_outcomes (sessionId : string) (e : Thrown) (data : TitleReply)
    (st : ChatState) :
  let failed := generateSessionTitle_resolve sessionId (Rejected e) st in
  let done := generateSessionTitle_resolve sessionId (Resolved data) st in
  (isGeneratingTitle failed = false
   /\ error failed = error st
   /\ sessions failed = sessions st
   /\ sessionMessages failed = sessionMessages st
   /\ currentSessionId failed = currentSessionId st
   /\ isLoadingSessions failed = isLoadingSessions st
   /\ isLoadingMessages failed = isLoadingMessages st
   /\ isSending failed = isSending st
   /\ streamingContent failed = streamingContent st
   /\ currentPhase failed = currentPhase st)
  /\ (isGeneratingTitle done = false
      /\ error done = error st
      /\ sessionMessages done = sessionMessages st
      /\ currentSessionId done = currentSessionId st
      /\ isLoadingSessions done = isLoadingSessions st
      /\ isLoadingMessages done = isLoadingMessages st
      /\ isSending done = isSending st
      /\ streamingContent done = streamingContent st
      /\ currentPhase done = currentPhase st
      /\ length (sessions done) = length (sessions st)
      /\ forall i s, sessions st !! i = Some s ->
           exists s', sessions done !! i = Some s'
             /\ (Session.id s <> sessionId -> s' = s)
             /\ (Session.id s = sessionId ->
                   Session.title s' = reply_title data
                   /\ Session.description s' = reply_description data)
             /\ Session.id s' = Session.id s
             /\ Session.model_name s' = Session.model_name s
             /\ Session.is_archived s' = Session.is_archived s
             /\ Session.is_pinned s' = Session.is_pinned s
             /\ Session.tags s' = Session.tags s
             /\ Session.total_tokens_used s' = Session.total_tokens_used s
             /\ Session.created_at s' = Session.created_at s
             /\ Session.updated_at s' = Session.updated_at s
             /\ Session.message_count s' = Session.message_count s
             /\ Session.last_message_preview s' = Session.last_message_preview s).
Proof.
  simpl. split; [repeat split|].
  repeat split; try apply length_map.
  intros i s Hs.
  eexists. split; [rewrite list_lookup_fmap, Hs; reflexivity|].
  destruct (String.eqb_spec (Session.id s) sessionId) as [Heq|Hne];
    repeat split; simpl; congruence.
Qed.

(** ** Archiving against deleting *)

(** C10.  A successful [archiveSession] removes every entry with that
    identifier from the list and clears the current pointer when it
    matches (keeps it otherwise), and leaves the whole message cache, the
    entry of [sessionId] included, and the error slot as they were; a
    successful [deleteSession] does the same to list and pointer but
    removes the cache entry of [sessionId], keeping the other entries. *)
Theorem archiveSession_keeps_cache (sessionId : string) (st : ChatState) :
  let archived := archiveSession sessionId (Resolved tt) st in
  let deleted := deleteSession sessionId (Resolved tt) st in
  (forall s, In s (sessions archived) <-> In s (sessions st) /\ Session.id s <> sessionId)
  /\ (currentSessionId st = Some sessionId -> currentSessionId archived = None)
  /\ (currentSessionId st <> Some sessionId -> currentSessionId archived = currentSessionId st)
  /\ sessionMessages archived = sessionMessages st
  /\ sessionMessages archived !! sessionId = sessionMessages st !! sessionId
  /\ error archived = error st
  /\ sessions deleted = sessions archived
  /\ currentSessionId deleted = currentSessionId archived
  /\ sessionMessages deleted !! sessionId = None
  /\ (forall other, other <> sessionId ->
        sessionMessages deleted !! other = sessionMessages st !! other)
  /\ error deleted = error st.
Proof.
  simpl. split; [intros s; apply remove_session_spec|].
  split; [intros ->; simpl; rewrite String.eqb_refl; reflexivity|].
  split.
  { intros Hne. unfold clear_if_current.
    destruct (currentSessionId st) as [c|]; [|reflexivity].
    destruct (String.eqb_spec c sessionId); [congruence|reflexivity]. }
  repeat split.
  - apply lookup_delete_eq.
  - intros other Hne. apply lookup_delete_ne. congruence.
Qed.

(** ** Helper facts on strings and on the trailing message *)

Lemma append_assoc (a b c : string) : (a ++ b) ++ c = a ++ (b ++ c).
Proof.
  induction a as [|x a IH]; [reflexivity|].
  change (String x ((a ++ b) ++ c) = String x (a ++ (b ++ c))). now rewrite IH.
Qed.

Lemma append_empty_r (a : string) : a ++ EmptyString = a.
Proof.
  induction a as [|x a IH]; [reflexivity|].
  change (String x (a ++ EmptyString) = String x a). now rewrite IH.
Qed.

Lemma update_streaming_last_snoc (f : Message.t -> Message.t)
    (before : list Message.t) (m : Message.t) :
  update_streaming_last f (before ++ [m])%list
  = (before ++ [if Message.streaming m then f m else m])%list.
Proof.
  induction before as [|x before IH]; [reflexivity|].
  change ((x :: before) ++ [m])%list with (x :: (before ++ [m]))%list.
  simpl. rewrite IH. destruct (before ++ [m])%list eqn:E; [|reflexivity].
  destruct before; discriminate.
Qed.

Lemma set_content_same (m : Message.t) : Message.set_content (Message.content m) m = m.
Proof. destruct m. reflexivity. Qed.

Lemma set_content_twice (c c' : string) (m : Message.t) :
  Message.set_content c (Message.set_content c' m) = Message.set_content c m.
Proof. reflexivity. Qed.

Lemma getSessionMessages_insert (st : ChatState) (sessionId : string) (l : list Message.t)
    (m : gmap string (list Message.t)) :
  sessionMessages st = <[sessionId := l]> m -> getSessionMessages st sessionId = l.
Proof. intros H. unfold getSessionMessages. rewrite H, lookup_insert_eq. reflexivity. Qed.

Lemma getSessionMessages_mk (sessionId : string) (l : list Message.t)
    (m : gmap string (list Message.t)) ss cur f1 f2 f3 f4 sc ph er :
  getSessionMessages (mkChatState ss cur (<[sessionId := l]> m) f1 f2 f3 f4 sc ph er)
    sessionId = l.
Proof. unfold getSessionMessages. cbn [sessionMessages]. now rewrite lookup_insert_eq. Qed.

(** ** The state of the store during one stream *)

(** The closed form of a run of events: from a state whose sequence for
    [sessionId] ends in a streaming message that shows the buffer, the events
    leave everything but that message's content, the mirror of the buffer,
    the phase and the error slot as they were. *)
Lemma apply_events_closed_form (sessionId : string) (evs : list StreamEvent) :
  forall (loc : StreamLocals) (st : ChatState) (before : list Message.t) (m : Message.t)
         (cache : gmap string (list Message.t)),
    sessionMessages st = <[sessionId := (before ++ [m])%list]> cache ->
    Message.streaming m = true ->
    Message.content m = streamedContent loc ->
    streamingContent st = streamedContent loc ->
    apply_events sessionId evs (loc, st)
    = (mkStreamLocals (streamedContent loc ++ streamed_text evs)
         (last_done (finalMessageId loc) evs),
       mkChatState (sessions st) (currentSessionId st)
         (<[sessionId := (before ++ [Message.set_content
                                       (streamedContent loc ++ streamed_text evs) m])%list]>
            cache)
         (isLoadingSessions st) (isLoadingMessages st) (isSending st) (isGeneratingTitle st)
         (streamedContent loc ++ streamed_text evs)
         (last_phase (currentPhase st) evs) (last_error (error st) evs)).
Proof.
  induction evs as [|ev evs IH]; intros loc st before m cache Hmap Hstr Hcon Hmir.
  - destruct loc, st. simpl in *. subst.
    rewrite append_empty_r, set_content_same. reflexivity.
  - unfold apply_events in *. simpl fold_left.
    destruct ev as [chunk|phase|mid|message]; simpl apply_event.
    + rewrite (getSessionMessages_insert st sessionId _ cache Hmap).
      rewrite update_streaming_last_snoc, Hstr, Hmap, insert_insert_eq.
      erewrite IH; [|reflexivity|exact Hstr|reflexivity|reflexivity].
      simpl. rewrite append_assoc. reflexivity.
    + erewrite IH; [|exact Hmap|exact Hstr|exact Hcon|exact Hmir]. reflexivity.
    + erewrite IH; [|exact Hmap|exact Hstr|exact Hcon|exact Hmir]. reflexivity.
    + erewrite IH; [|exact Hmap|exact Hstr|exact Hcon|exact Hmir]. reflexivity.
Qed.

(** The run of a stream's events right after the first [set] of the send. *)
Lemma stream_closed_form (sessionId content : string) (clock : Clock)
    (evs : list StreamEvent) (st : ChatState) :
  apply_events sessionId evs (initial_locals, send_begin sessionId content clock st)
  = (mkStreamLocals (streamed_text evs) (last_done EmptyString evs),
     mkChatState (sessions st) (currentSessionId st)
       (<[sessionId := (getSessionMessages st sessionId
                          ++ [userMessage content (now_user clock) (iso_user clock);
                              Message.set_content (streamed_text evs)
                                (assistantMessage (now_assistant clock)
                                   (iso_assistant clock))])%list]>
          (sessionMessages st))
       (isLoadingSessions st) (isLoadingMessages st) true (isGeneratingTitle st)
       (streamed_text evs)
       (last_phase (Some "thinking") evs) (last_error None evs)).
Proof.
  rewrite (apply_events_closed_form sessionId evs initial_locals _
             (getSessionMessages st sessionId
                ++ [userMessage content (now_user clock) (iso_user clock)])%list
             (assistantMessage (now_assistant clock) (iso_assistant clock))
             (sessionMessages st)); try reflexivity.
  - simpl. rewrite <- app_assoc. reflexivity.
  - simpl. rewrite <- app_assoc. reflexivity.
Qed.

Section DecoderFacts.

Variable parse_frame : string -> option StreamEvent.

Lemma apply_events_app (sessionId : string) (evs evs' : list StreamEvent)
    (s : StreamLocals * ChatState) :
  apply_events sessionId (evs ++ evs')%list s
  = apply_events sessionId evs' (apply_events sessionId evs s).
Proof. unfold apply_events. apply fold_left_app. Qed.

Lemma handle_line_events (sessionId : string) (s : StreamLocals * ChatState) (line : string) :
  handle_line parse_frame sessionId s line
  = apply_events sessionId (decode_line parse_frame line) s.
Proof.
  unfold handle_line, decode_line.
  destruct (JS.startsWith line "data: "); [|reflexivity].
  destruct (parse_frame (JS.slice 6 line)); reflexivity.
Qed.

Lemma handle_lines_events (sessionId : string) (lines : list string) :
  forall s, fold_left (handle_line parse_frame sessionId) lines s
            = apply_events sessionId (flat_map (decode_line parse_frame) lines) s.
Proof.
  induction lines as [|line lines IH]; intros s; [reflexivity|].
  simpl. rewrite IH, handle_line_events, apply_events_app. reflexivity.
Qed.

(** The read loop applies, in order, the events it decodes. *)
Lemma read_loop_events (sessionId : string) (reads : list string) :
  forall s, read_loop parse_frame sessionId reads s
            = apply_events sessionId (decode_reads parse_frame reads) s.
Proof.
  induction reads as [|chunk reads IH]; intros s; [reflexivity|].
  unfold read_loop, decode_reads in *. simpl.
  rewrite IH, apply_events_app. unfold handle_chunk, decode_chunk.
  rewrite handle_lines_events. reflexivity.
Qed.

End DecoderFacts.

(** ** One send, seen through its events *)

Section SendFacts.

Variable parse_frame : string -> option StreamEvent.

(** A send on the current session, by what the transport does. *)
Lemma sendMessage_on_current (sessionId content : string) (create : Reply Session.t)
    (clock : Clock) (transport : Transport) (st : ChatState) :
  currentSessionId st = Some sessionId ->
  JS.truthy sessionId = true ->
  sendMessage parse_frame content create clock transport st
  = match transport with
    | RequestThrows e => (rollback sessionId e (send_begin sessionId content clock st), [])
    | ResponseNotOk =>
        (rollback sessionId (ThrownError "Stream request failed")
           (send_begin sessionId content clock st), [])
    | NoReader =>
        (rollback sessionId (ThrownError "No reader available")
           (send_begin sessionId content clock st), [])
    | Body reads (ReadThrows e) =>
        (rollback sessionId e
           (snd (apply_events sessionId (decode_reads parse_frame reads)
                   (initial_locals, send_begin sessionId content clock st))), [])
    | Body reads EndOfStream =>
        complete sessionId
          (apply_events sessionId (decode_reads parse_frame reads)
             (initial_locals, send_begin sessionId content clock st))
    end.
Proof.
  intros Hcur Htruthy. unfold sendMessage, no_session.
  rewrite Hcur, Htruthy. simpl negb. cbv iota.
  destruct transport as [e| | |reads close]; try reflexivity.
  rewrite read_loop_events.
  destruct (apply_events _ _ _) as [loc st2].
  destruct close; reflexivity.
Qed.

End SendFacts.

Lemma provisional_pair_is_temporary (content : string) (clock : Clock) (text : string) :
  List.filter (fun m => negb (JS.startsWith (Message.id m) "temp-"))
    [userMessage content (now_user clock) (iso_user clock);
     Message.set_content text
       (assistantMessage (now_assistant clock) (iso_assistant clock))] = [].
Proof. reflexivity. Qed.

(** The state a failed send leaves: the [catch] after any events. *)
Lemma failed_send_state (sessionId content : string) (clock : Clock)
    (evs : list StreamEvent) (e : Thrown) (st : ChatState) :
  rollback sessionId e
    (snd (apply_events sessionId evs (initial_locals, send_begin sessionId content clock st)))
  = mkChatState (sessions st) (currentSessionId st)
      (<[sessionId := List.filter (fun m => negb (JS.startsWith (Message.id m) "temp-"))
                        (getSessionMessages st sessionId)]>
         (sessionMessages st))
      (isLoadingSessions st) (isLoadingMessages st) false (isGeneratingTitle st)
      (streamed_text evs) None (Some (error_message e "Failed to send message")).
Proof.
  rewrite stream_closed_form. unfold rollback. simpl.
  unfold getSessionMessages at 1. simpl. rewrite lookup_insert_eq. simpl.
  rewrite insert_insert_eq.
  rewrite List.filter_app, provisional_pair_is_temporary, app_nil_r.
  reflexivity.
Qed.

(** When no message of the pre-send sequence carries a temporary
    identifier, a failed send restores that sequence. *)
Lemma failed_send_restores_without_temporary_ids (sessionId content : string)
    (clock : Clock) (evs : list StreamEvent) (e : Thrown) (st : ChatState) :
  Forall (fun m => JS.startsWith (Message.id m) "temp-" = false)
    (getSessionMessages st sessionId) ->
  let st' := rollback sessionId e
               (snd (apply_events sessionId evs
                       (initial_locals, send_begin sessionId content clock st))) in
  getSessionMessages st' sessionId = getSessionMessages st sessionId
  /\ error st' = Some (error_message e "Failed to send message")
  /\ isSending st' = false
  /\ currentPhase st' = None.
Proof.
  intros Hpre st'. subst st'. rewrite failed_send_state.
  repeat split.
  unfold getSessionMessages at 1. cbn [sessionMessages].
  rewrite lookup_insert_eq. cbn [default].
  apply filter_all. eapply List.Forall_impl; [|exact Hpre].
  intros m Hm. cbn beta. now rewrite Hm.
Qed.

Lemma streaming_count_zero (messages : list Message.t) :
  streaming_count messages = 0%nat
  <-> Forall (fun m => Message.streaming m = false) messages.
Proof.
  unfold streaming_count. induction messages as [|m l IH]; cbn [List.filter].
  - split; [constructor | reflexivity].
  - destruct (Message.streaming m) eqn:Hm; cbn [length].
    + split; [discriminate|]. intros H. inversion H; congruence.
    + rewrite IH. split; [now constructor | intros H; now inversion H].
Qed.

(** The sequence ends in a streaming message and holds no other. *)
Lemma one_streaming_last_step (sessionId : string) (step : StreamStep)
    (s : StreamLocals * ChatState) :
  keeps_sequence sessionId step ->
  (exists before m,
     sessionMessages (snd s) !! sessionId = Some (before ++ [m])%list
     /\ Message.streaming m = true
     /\ Forall (fun x => Message.streaming x = false) before) ->
  exists before m,
    sessionMessages (snd (stream_step sessionId s step)) !! sessionId
    = Some (before ++ [m])%list
    /\ Message.streaming m = true
    /\ Forall (fun x => Message.streaming x = false) before.
Proof.
  intros Hkeep (before & m & Hseq & Hstr & Hbefore). destruct s as [loc st].
  cbn [snd] in Hseq. destruct step as [ev|act]; cbn [stream_step keeps_sequence] in *.
  - destruct ev; cbn [apply_event snd]; try (exists before, m; tauto).
    assert (Hget : getSessionMessages st sessionId = (before ++ [m])%list)
      by (unfold getSessionMessages; now rewrite Hseq).
    exists before. eexists. cbn [sessionMessages].
    rewrite lookup_insert_eq, Hget, update_streaming_last_snoc, Hstr.
    split; [reflexivity|]. split; [exact Hstr | exact Hbefore].
  - exists before, m. cbn [snd fst]. rewrite Hkeep. tauto.
Qed.

Lemma apply_event_other_sessions (sessionId other : string) (ev : StreamEvent)
    (s : StreamLocals * ChatState) :
  other <> sessionId ->
  sessionMessages (snd (apply_event sessionId ev s)) !! other
  = sessionMessages (snd s) !! other.
Proof.
  intros Hne. destruct s as [loc st]. destruct ev; cbn [apply_event snd]; try reflexivity.
  cbn [sessionMessages]. apply lookup_insert_ne. congruence.
Qed.

(** C3, as the code has it.  During a stream for [sessionId] that starts
    on a sequence without streaming message, and into which no other
    action of the store cuts that changes this session's sequence (other
    actions may come in between): after the first [set] of the send and
    after every step since, the session's sequence holds exactly one
    message whose streaming flag is set, and that message is its last
    element.  The first [set] and every event of the stream leave the
    cache entry of every other session as it is; so after the events of a
    stream alone, those entries are the ones from before the send. *)
Theorem stream_keeps_one_streaming_message_last (sessionId content : string)
    (clock : Clock) (steps : list StreamStep) (evs : list StreamEvent) (st : ChatState) :
  streaming_count (getSessionMessages st sessionId) = 0%nat ->
  Forall (keeps_sequence sessionId) steps ->
  let st' := snd (run_stream sessionId steps
                    (initial_locals, send_begin sessionId content clock st)) in
  streaming_count (getSessionMessages st' sessionId) = 1%nat
  /\ (exists m, last (getSessionMessages st' sessionId) = Some m
                /\ Message.streaming m = true)
  /\ (forall other, other <> sessionId ->
        sessionMessages (send_begin sessionId content clock st) !! other
        = sessionMessages st !! other)
  /\ (forall other ev s, other <> sessionId ->
        sessionMessages (snd (apply_event sessionId ev s)) !! other
        = sessionMessages (snd s) !! other)
  /\ (forall other, other <> sessionId ->
        sessionMessages
          (snd (apply_events sessionId evs
                  (initial_locals, send_begin sessionId content clock st))) !! other
        = sessionMessages st !! other).
Proof.
  intros Hpre Hsteps st'.
  assert (Hinv : exists before m,
             sessionMessages st' !! sessionId = Some (before ++ [m])%list
             /\ Message.streaming m = true
             /\ Forall (fun x => Message.streaming x = false) before).
  { subst st'. unfold run_stream.
    assert (Hstart : exists before m,
               sessionMessages
                 (snd (initial_locals, send_begin sessionId content clock st))
               !! sessionId = Some (before ++ [m])%list
               /\ Message.streaming m = true
               /\ Forall (fun x => Message.streaming x = false) before).
    { exists (getSessionMessages st sessionId
                ++ [userMessage content (now_user clock) (iso_user clock)])%list.
      exists (assistantMessage (now_assistant clock) (iso_assistant clock)).
      cbn [snd send_begin sessionMessages]. rewrite lookup_insert_eq, <- app_assoc.
      split; [reflexivity|]. split; [reflexivity|].
      apply Forall_app. split; [apply streaming_count_zero, Hpre|].
      repeat constructor. }
    revert Hstart. generalize (initial_locals, send_begin sessionId content clock st).
    induction Hsteps as [|step steps Hstep Hrest IH]; intros s Hs; [exact Hs|].
    cbn [fold_left]. apply IH. apply one_streaming_last_step; assumption. }
  destruct Hinv as (before & m & Hseq & Hstr & Hbefore).
  assert (Hget : getSessionMessages st' sessionId = (before ++ [m])%list).
  { unfold getSessionMessages. now rewrite Hseq. }
  split; [|split; [|split; [|split]]].
  - rewrite Hget. unfold streaming_count.
    rewrite List.filter_app, length_app. cbn [List.filter]. rewrite Hstr.
    apply streaming_count_zero in Hbefore. unfold streaming_count in Hbefore.
    rewrite Hbefore. reflexivity.
  - exists m. rewrite Hget. split; [apply last_snoc | exact Hstr].
  - intros other Hne. cbn [send_begin sessionMessages].
    apply lookup_insert_ne. congruence.
  - intros other ev s Hne. apply apply_event_other_sessions, Hne.
  - intros other Hne. rewrite stream_closed_form. cbn [snd sessionMessages].
    apply lookup_insert_ne. congruence.
Qed.

(** C3, as the specification words it, fails.  The store does not hold
    other actions back while a stream is active.  A refresh of the session
    that resolves after the send has started replaces the sequence,
    placeholder included: the stream is still active (its events are still
    applied, the sending flag is up) and the sequence holds no streaming
    message.  And a second send that starts while the first stream is
    active finds the first placeholder in the sequence and adds its own:
    the sequence holds two streaming messages. *)
Lemma stream_cut_by_another_action_breaks_count :
  (let st := snd (apply_events "s2" Sample.scenario_events
                    (initial_locals,
                     selectSession_resolve "s2" (Resolved Sample.detail)
                       (send_begin "s2" "hello" Sample.clock Fixture.busy_store))) in
   isSending st = true
   /\ streaming_count (getSessionMessages st "s2") = 0%nat)
  /\ (let st := snd (apply_events "s2" Sample.scenario_events
                       (initial_locals,
                        send_begin "s2" "again" Sample.clock'
                          (send_begin "s2" "hello" Sample.clock Fixture.busy_store))) in
      isSending st = true
      /\ streaming_count (getSessionMessages st "s2") = 2%nat)
  /\ ~ (streaming_count
          (getSessionMessages
             (snd (apply_events "s2" Sample.scenario_events
                     (initial_locals,
                      selectSession_resolve "s2" (Resolved Sample.detail)
                        (send_begin "s2" "hello" Sample.clock Fixture.busy_store))))
             "s2") = 1%nat).
Proof.
  cbn zeta. split; [|split].
  - split; vm_compute; reflexivity.
  - split; vm_compute; reflexivity.
  - vm_compute. discriminate.
Qed.

(** A [message] event overwrites: whatever the trailing streaming message
    showed, it shows the whole buffer afterwards. *)
Lemma message_event_overwrites_trailing (sessionId chunk : string) (loc : StreamLocals)
    (st : ChatState) (before : list Message.t) (m : Message.t) :
  sessionMessages st !! sessionId = Some (before ++ [m])%list ->
  Message.streaming m = true ->
  getSessionMessages (snd (apply_event sessionId (EvMessage chunk) (loc, st))) sessionId
  = (before ++ [Message.set_content (streamedContent loc ++ chunk) m])%list.
Proof.
  intros Hmap Hstr. simpl. unfold getSessionMessages. simpl.
  rewrite lookup_insert_eq, Hmap. simpl.
  rewrite update_streaming_last_snoc, Hstr. reflexivity.
Qed.


Lemma getSessionMessages_snoc (st : ChatState) (sessionId : string)
    (before : list Message.t) (m : Message.t) :
  getSessionMessages st sessionId = (before ++ [m])%list ->
  sessionMessages st !! sessionId = Some (before ++ [m])%list.
Proof.
  unfold getSessionMessages. destruct (sessionMessages st !! sessionId) as [l|]; cbn.
  - now intros ->.
  - intros H. destruct before; discriminate.
Qed.





(** ** The scenario of the specification *)

(** C5, as the code has it.  Sending "hello" on a session with no message
    yet, then the [message] events "H", "He" and "Hello", the [phase] event
    "responding", the [done] event "m-42" and the end of the stream: the
    session holds two messages, the user's "hello" (still under its
    temporary identifier) and the assistant's, finalized under "m-42" with
    the streaming flag cleared and with content "HHeHello" (the three
    fragments, appended); a title generation is scheduled after 500 ms and
    the session list is being fetched again. *)
Theorem scenario_hello_final_state (parse_frame : string -> option StreamEvent)
    (sessionId : string) (create : Reply Session.t) (clock : Clock)
    (reads : list string) (st : ChatState) :
  currentSessionId st = Some sessionId ->
  JS.truthy sessionId = true ->
  getSessionMessages st sessionId = [] ->
  decode_reads parse_frame reads = Sample.scenario_events ->
  let final := sendMessage parse_frame "hello" create clock (Body reads EndOfStream) st in
  getSessionMessages (fst final) sessionId
  = [Message.mk ("temp-" ++ JS.number_to_string (now_user clock)) user "hello"
       None None (iso_user clock) None;
     Message.mk "m-42" assistant "HHeHello" None None (iso_assistant clock) (Some false)]
  /\ snd final = [SetTimeout_generateSessionTitle sessionId 500; Pending_fetchSessions]
  /\ isSending (fst final) = false
  /\ currentPhase (fst final) = None.
Proof.
  intros Hcur Htruthy Hempty Hevs final. subst final.
  rewrite (sendMessage_on_current parse_frame sessionId _ _ _ _ _ Hcur Htruthy).
  rewrite Hevs, stream_closed_form, Hempty.
  unfold complete, title_effects, finalize, getSessionMessages.
  cbn [fst snd sessionMessages fetchSessions_begin isSending currentPhase
       finalMessageId streamedContent].
  rewrite !lookup_insert_eq. repeat split.
Qed.

Lemma scenario_hello_final_state_witness :
  currentSessionId Sample.store = Some "s1"
  /\ JS.truthy "s1" = true
  /\ getSessionMessages Sample.store "s1" = []
  /\ decode_reads CompactFrame.parse Sample.scenario_reads = Sample.scenario_events
  /\ getSessionMessages
       (fst (sendMessage CompactFrame.parse "hello" (Rejected ThrownOther) Sample.clock
               (Body Sample.scenario_reads EndOfStream) Sample.store)) "s1"
     = [Message.mk "temp-1714644000123" user "hello" None None
          "2024-05-02T10:00:00.123Z" None;
        Message.mk "m-42" assistant "HHeHello" None None "2024-05-02T10:00:00.124Z"
          (Some false)]
  /\ snd (sendMessage CompactFrame.parse "hello" (Rejected ThrownOther) Sample.clock
            (Body Sample.scenario_reads EndOfStream) Sample.store)
     = [SetTimeout_generateSessionTitle "s1" 500; Pending_fetchSessions].
Proof.
  assert (H1 : currentSessionId Sample.store = Some "s1") by reflexivity.
  assert (H2 : JS.truthy "s1" = true) by reflexivity.
  assert (H3 : getSessionMessages Sample.store "s1" = []) by (vm_compute; reflexivity).
  assert (H4 : decode_reads CompactFrame.parse Sample.scenario_reads
               = Sample.scenario_events) by (vm_compute; reflexivity).
  pose proof (scenario_hello_final_state CompactFrame.parse "s1" (Rejected ThrownOther)
                Sample.clock Sample.scenario_reads Sample.store H1 H2 H3 H4) as H.
  cbv zeta in H. destruct H as (Hmsgs & Heff & _).
  repeat split; assumption.
Defined.

(** C5, as the specification words it, fails: at the end of the scenario
    the assistant message does not read "Hello". *)
Lemma scenario_hello_content_is_not_Hello :
  ~ (exists u a,
       getSessionMessages
         (fst (sendMessage CompactFrame.parse "hello" (Rejected ThrownOther) Sample.clock
                 (Body Sample.scenario_reads EndOfStream) Sample.store)) "s1" = [u; a]
       /\ Message.role u = user /\ Message.content u = "hello"
       /\ Message.role a = assistant /\ Message.content a = "Hello"
       /\ Message.id a = "m-42" /\ Message.isStreaming a = Some false).
Proof.
  intros (u & a & Hmsgs & _ & _ & _ & Hcontent & _).
  vm_compute in Hmsgs. injection Hmsgs as _ Ha. subst a. discriminate Hcontent.
Qed.

(** ** Rolling back a failed send *)

(** C1, at a failing input.  A first send on [s1] completes (its user
    message keeps the identifier [temp-...]); a second send fails at the
    request.  The [catch] removes the first turn's user message with the
    two provisional messages of the second send: the sequence is not the
    pre-send one.  Error slot, sending flag and phase are as claimed. *)
Theorem failed_send_removes_earlier_turn :
  let st1 := fst (sendMessage CompactFrame.parse "hello" (Rejected ThrownOther)
                    Sample.clock (Body Sample.scenario_reads EndOfStream) Sample.store) in
  let st2 := fst (sendMessage CompactFrame.parse "again" (Rejected ThrownOther)
                    Sample.clock' (RequestThrows (ThrownError "Failed to fetch")) st1) in
  getSessionMessages st1 "s1"
  = [Message.mk "temp-1714644000123" user "hello" None None "2024-05-02T10:00:00.123Z" None;
     Message.mk "m-42" assistant "HHeHello" None None "2024-05-02T10:00:00.124Z"
       (Some false)]
  /\ getSessionMessages st2 "s1"
     = [Message.mk "m-42" assistant "HHeHello" None None "2024-05-02T10:00:00.124Z"
          (Some false)]
  /\ getSessionMessages st2 "s1" <> getSessionMessages st1 "s1"
  /\ error st2 = Some "Failed to fetch"
  /\ isSending st2 = false
  /\ currentPhase st2 = None.
Proof.
  vm_compute. repeat split. discriminate.
Qed.

(** ** Decoding the body read by read *)

Lemma append_cons (c : ascii) (a b : string) : String c a ++ b = String c (a ++ b).
Proof. reflexivity. Qed.

Lemma split_newline_nonempty (s : string) : JS.split_newline s <> [].
Proof.
  induction s as [|c s IH]; simpl; [discriminate|].
  destruct (Ascii.eqb c JS.newline); [discriminate|].
  destruct (JS.split_newline s); [contradiction | discriminate].
Qed.

Lemma removelast_cons {A : Type} (x : A) (l : list A) :
  l <> [] -> removelast (x :: l) = x :: removelast l.
Proof. destruct l; [contradiction | reflexivity]. Qed.

Lemma last_cons {A : Type} (x d : A) (l : list A) :
  l <> [] -> List.last (x :: l) d = List.last l d.
Proof. destruct l; [contradiction | reflexivity]. Qed.

(** Splitting a text at its line feeds, by a cut of the text: the lines
    complete before the cut, then the lines of the unfinished one joined to
    the rest. *)
Lemma split_newline_app (a b : string) :
  JS.split_newline (a ++ b)
  = (removelast (JS.split_newline a)
       ++ JS.split_newline (List.last (JS.split_newline a) EmptyString ++ b))%list.
Proof.
  induction a as [|c a IH]; [reflexivity|].
  rewrite append_cons. cbn [JS.split_newline].
  pose proof (split_newline_nonempty a) as Hne.
  destruct (Ascii.eqb c JS.newline) eqn:Hc.
  - rewrite removelast_cons, last_cons by exact Hne.
    rewrite IH. reflexivity.
  - rewrite IH.
    destruct (JS.split_newline a) as [|p0 r0] eqn:Hsa; [contradiction|].
    destruct r0 as [|p1 r1].
    + cbn [removelast List.last app]. rewrite append_cons.
      cbn [JS.split_newline]. rewrite Hc. reflexivity.
    + rewrite !removelast_cons, !last_cons by discriminate. reflexivity.
Qed.

(** The unfinished line holds no line feed. *)
Lemma split_newline_last (s : string) :
  JS.split_newline (List.last (JS.split_newline s) EmptyString)
  = [List.last (JS.split_newline s) EmptyString].
Proof.
  induction s as [|c s IH]; [reflexivity|].
  cbn [JS.split_newline].
  pose proof (split_newline_nonempty s) as Hne.
  destruct (Ascii.eqb c JS.newline) eqn:Hc.
  - rewrite last_cons by exact Hne. exact IH.
  - destruct (JS.split_newline s) as [|p0 r0] eqn:Hs; [contradiction|].
    destruct r0 as [|p1 r1].
    + cbn [List.last] in *. cbn [JS.split_newline]. rewrite Hc, IH. reflexivity.
    + rewrite last_cons by discriminate. rewrite last_cons in IH by discriminate.
      exact IH.
Qed.

Section DecodingFacts.

Variable parse_frame : string -> option StreamEvent.

(** The loop of the source keeps nothing from one read to the next: the
    events of a body are those of its reads, each decoded on its own. *)
Lemma decode_reads_app (reads reads' : list string) :
  decode_reads parse_frame (reads ++ reads')%list
  = (decode_reads parse_frame reads ++ decode_reads parse_frame reads')%list.
Proof. unfold decode_reads. apply flat_map_app. Qed.

(** The decoder of the specification reads the body as one text, whatever
    the cuts between reads. *)
Lemma buffered_decode_body (reads : list string) :
  forall pending,
    JS.split_newline pending = [pending] ->
    buffered_decode parse_frame pending reads
    = flat_map (decode_line parse_frame)
        (removelast (JS.split_newline (pending ++ body_text reads))).
Proof.
  induction reads as [|chunk reads IH]; intros pending Hpending.
  - cbn [body_text fold_right buffered_decode]. rewrite append_empty_r, Hpending.
    reflexivity.
  - cbn [body_text fold_right buffered_decode]. fold (body_text reads).
    rewrite IH by apply split_newline_last.
    rewrite <- append_assoc, (split_newline_app (pending ++ chunk)).
    rewrite removelast_app by apply split_newline_nonempty.
    rewrite flat_map_app. reflexivity.
Qed.

Lemma buffered_decode_any_partition (reads reads' : list string) :
  body_text reads = body_text reads' ->
  buffered_decode parse_frame EmptyString reads
  = buffered_decode parse_frame EmptyString reads'.
Proof.
  intros Hbody. rewrite !buffered_decode_body by reflexivity. now rewrite Hbody.
Qed.

(** When every read ends at a line boundary, the loop of the source decodes
    what the decoder of the specification decodes. *)
Lemma decode_reads_line_aligned (reads : list string) :
  Forall line_aligned reads ->
  decode_reads parse_frame reads = buffered_decode parse_frame EmptyString reads.
Proof.
  induction 1 as [|chunk reads Hchunk Hreads IH]; [reflexivity|].
  cbn [buffered_decode]. unfold decode_reads in *. cbn [flat_map].
  change (EmptyString ++ chunk) with chunk.
  unfold line_aligned in Hchunk. rewrite Hchunk, <- IH. f_equal.
  unfold decode_chunk.
  rewrite (app_removelast_last EmptyString (split_newline_nonempty chunk)) at 1.
  rewrite Hchunk, flat_map_app. cbn. apply app_nil_r.
Qed.

(** A frame cut in the middle of its line is lost by the loop of the
    source, whatever reads the payloads, as soon as the cut payload is
    rejected (as [JSON.parse] rejects a truncated text). *)
Lemma cut_frame_is_lost :
  parse_frame (JS.slice 6 Sample.first_half) = None ->
  decode_reads parse_frame [Sample.first_half; Sample.second_half] = [].
Proof.
  intros Hcut. unfold decode_reads, decode_chunk. cbn [flat_map].
  change (JS.split_newline Sample.first_half) with [Sample.first_half].
  change (JS.split_newline Sample.second_half)
    with [List.hd EmptyString (JS.split_newline Sample.second_half); EmptyString].
  cbn [flat_map]. unfold decode_line at 1.
  change (JS.startsWith Sample.first_half "data: ") with true.
  cbv iota. rewrite Hcut. reflexivity.
Qed.

End DecodingFacts.

(** C2, at a failing input.  The frame of a [message] event with fragment
    "Hi", delivered in one read, is decoded; delivered in two reads cut in
    the middle of its line, it is lost: the first part's payload does not
    parse and the second part does not begin with the data prefix.  The
    decoder that buffers the unfinished line decodes the event from both
    deliveries.  At the end of the send the assistant message reads "Hi"
    after the one, and is empty after the other. *)
Theorem frame_cut_across_reads_is_lost :
  Sample.first_half ++ Sample.second_half = Sample.whole_frame
  /\ decode_reads CompactFrame.parse [Sample.whole_frame] = [EvMessage "Hi"]
  /\ decode_reads CompactFrame.parse [Sample.first_half; Sample.second_half] = []
  /\ buffered_decode CompactFrame.parse EmptyString [Sample.whole_frame] = [EvMessage "Hi"]
  /\ buffered_decode CompactFrame.parse EmptyString [Sample.first_half; Sample.second_half]
     = [EvMessage "Hi"]
  /\ Message.content <$>
       last (getSessionMessages
               (fst (sendMessage CompactFrame.parse "hello" (Rejected ThrownOther)
                       Sample.clock (Body [Sample.whole_frame] EndOfStream) Sample.store))
               "s1") = Some "Hi"
  /\ Message.content <$>
       last (getSessionMessages
               (fst (sendMessage CompactFrame.parse "hello" (Rejected ThrownOther)
                       Sample.clock
                       (Body [Sample.first_half; Sample.second_half] EndOfStream)
                       Sample.store))
               "s1") = Some EmptyString.
Proof. vm_compute. repeat split. Qed.

(** ** The theorems at the sample store *)

Lemma sample_store_ordered : registry_ordered Sample.getTime (sessions Sample.store).
Proof.
  unfold registry_ordered, pin_recency. cbn [sessions Sample.store].
  repeat constructor; cbn; intros; try discriminate; try lia; auto.
Qed.




Lemma selectSession_cached_then_refreshed_witness :
  is_Some (sessionMessages Sample.store !! "s2")
  /\ currentSessionId (selectSession_begin "s2" Sample.store) = Some "s2"
  /\ sessionMessages
       (selectSession_resolve "s2" (Resolved Sample.detail)
          (selectSession_begin "s1" (selectSession_begin "s2" Sample.store))) !! "s2"
     = Some [Sample.message "m-1" user "ping"; Sample.message "m-2" assistant "pong";
             Sample.message "m-3" user "more"]
  /\ (exists s',
        sessions
          (selectSession_resolve "s2" (Resolved Sample.detail)
             (selectSession_begin "s1" (selectSession_begin "s2" Sample.store))) !! 2%nat
        = Some s'
        /\ Session.title s' = "Ping"
        /\ Session.total_tokens_used s' = 42%Z
        /\ Session.updated_at s' = "2024-05-02T10:00:00Z"
        /\ Session.model_name s' = "gpt-4o"
        /\ Session.is_pinned s' = false).
Proof.
  assert (H : is_Some (sessionMessages Sample.store !! "s2")) by (vm_compute; eauto).
  pose proof (selectSession_cached_then_refreshed "s2" Sample.detail Sample.store
                (selectSession_begin "s1" (selectSession_begin "s2" Sample.store)) H)
    as (Hcur & _ & Hentry & _ & _ & _ & Hmerge).
  split; [exact H|]. split; [exact Hcur|]. split; [exact Hentry|].
  destruct (Hmerge 2%nat (Sample.session "s2" false "2024-05-01T10:00:00Z") eq_refl)
    as (s' & Hs' & _ & Hfields).
  destruct (Hfields eq_refl)
    as (_ & Htitle & _ & Hmodel & _ & Hpin & _ & Htokens & _ & Hupd & _).
  exists s'. split; [exact Hs'|]. repeat split; assumption.
Defined.

Lemma stream_keeps_one_streaming_message_last_witness :
  streaming_count (getSessionMessages Sample.store "s2") = 0%nat
  /\ Forall (keeps_sequence "s2")
       [StepEvent (EvMessage "H"); StepOther fetchSessions_begin;
        StepEvent (EvMessage "He"); StepOther (archiveSession "s1" (Resolved tt));
        StepEvent (EvDone "m-42")]
  /\ streaming_count
       (getSessionMessages
          (snd (run_stream "s2"
                  [StepEvent (EvMessage "H"); StepOther fetchSessions_begin;
                   StepEvent (EvMessage "He");
                   StepOther (archiveSession "s1" (Resolved tt));
                   StepEvent (EvDone "m-42")]
                  (initial_locals, send_begin "s2" "hello" Sample.clock Sample.store)))
          "s2") = 1%nat.
Proof.
  assert (H : streaming_count (getSessionMessages Sample.store "s2") = 0%nat)
    by (vm_compute; reflexivity).
  assert (Hsteps : Forall (keeps_sequence "s2")
                     [StepEvent (EvMessage "H"); StepOther fetchSessions_begin;
                      StepEvent (EvMessage "He");
                      StepOther (archiveSession "s1" (Resolved tt));
                      StepEvent (EvDone "m-42")])
    by (repeat constructor; intros st; reflexivity).
  split; [exact H|]. split; [exact Hsteps|].
  apply (stream_keeps_one_streaming_message_last "s2" "hello" Sample.clock _ []
           Sample.store H Hsteps).
Defined.

(** ** Between sends *)

(** The state a completed send leaves, before title generation and the
    list refresh resolve. *)
Lemma completed_send_state (sessionId content : string) (clock : Clock)
    (evs : list StreamEvent) (st : ChatState) :
  fst (complete sessionId
         (apply_events sessionId evs
            (initial_locals, send_begin sessionId content clock st)))
  = mkChatState (sessions st) (currentSessionId st)
      (<[sessionId :=
           (getSessionMessages st sessionId
              ++ [userMessage content (now_user clock) (iso_user clock);
                  Message.mk
                    (if JS.truthy (last_done EmptyString evs)
                     then last_done EmptyString evs
                     else "temp-assistant-" ++ JS.number_to_string (now_assistant clock))
                    assistant (streamed_text evs) None None (iso_assistant clock)
                    (Some false)])%list]>
         (sessionMessages st))
      true (isLoadingMessages st) false (isGeneratingTitle st)
      (streamed_text evs) None None.
Proof.
  rewrite stream_closed_form. unfold complete, finalize, fetchSessions_begin.
  cbn [fst snd sessions currentSessionId sessionMessages isLoadingSessions
       isLoadingMessages isSending isGeneratingTitle streamingContent currentPhase
       error finalMessageId streamedContent].
  rewrite getSessionMessages_mk, insert_insert_eq.
  change (?l ++ [?u; ?a])%list with (l ++ [u] ++ [a])%list.
  rewrite app_assoc, update_streaming_last_snoc, <- app_assoc.
  cbn [Message.streaming Message.set_content assistantMessage Message.isStreaming].
  destruct (JS.truthy (last_done EmptyString evs)); reflexivity.
Qed.

(** A send on the current session, run to its end on either path, leaves
    no streaming message in the session's sequence when it found none: the
    premise of the stream invariant holds again for the next send. *)
Lemma send_leaves_no_streaming_message (parse_frame : string -> option StreamEvent)
    (sessionId content : string) (create : Reply Session.t) (clock : Clock)
    (transport : Transport) (st : ChatState) :
  currentSessionId st = Some sessionId ->
  JS.truthy sessionId = true ->
  streaming_count (getSessionMessages st sessionId) = 0%nat ->
  streaming_count
    (getSessionMessages
       (fst (sendMessage parse_frame content create clock transport st)) sessionId)
  = 0%nat.
Proof.
  intros Hcur Htruthy Hpre.
  rewrite (sendMessage_on_current parse_frame sessionId _ _ _ _ _ Hcur Htruthy).
  assert (Hfail : forall e evs,
             streaming_count
               (getSessionMessages
                  (rollback sessionId e
                     (snd (apply_events sessionId evs
                             (initial_locals, send_begin sessionId content clock st))))
                  sessionId) = 0%nat).
  { intros e evs. rewrite failed_send_state, getSessionMessages_mk.
    apply streaming_count_zero. apply streaming_count_zero in Hpre.
    rewrite List.Forall_forall in *. intros m Hm.
    apply filter_In in Hm. apply Hpre, Hm. }
  destruct transport as [e| | |reads [|e]]; cbn [fst];
    try exact (Hfail _ []); try apply Hfail.
  rewrite completed_send_state, getSessionMessages_mk.
  unfold streaming_count in *. rewrite List.filter_app, length_app, Hpre.
  reflexivity.
Qed.

(** A refresh of the same session that resolves while its stream is active
    is another action on the sequence: it replaces the sequence, placeholder
    included, and the events that follow find no streaming message to
    update.  The stream invariant is about a stream no such action cuts
    into. *)
Lemma refresh_during_stream_replaces_placeholder (sessionId content : string)
    (clock : Clock) (session : SessionDetail) (evs : list StreamEvent) (st : ChatState) :
  streaming_count (default [] (detail_messages session)) = 0%nat ->
  getSessionMessages
    (snd (apply_events sessionId evs
            (initial_locals,
             selectSession_resolve sessionId (Resolved session)
               (send_begin sessionId content clock st))))
    sessionId
  = default [] (detail_messages session).
Proof.
  intros Hnone. apply streaming_count_zero in Hnone.
  assert (Hkeep : forall f, update_streaming_last f (default [] (detail_messages session))
                            = default [] (detail_messages session)).
  { intros f. induction Hnone as [|m l Hm Hl IH]; [reflexivity|].
    cbn [update_streaming_last]. destruct l as [|m' l'].
    - now rewrite Hm.
    - now rewrite IH. }
  assert (Hgen : forall s : StreamLocals * ChatState,
             getSessionMessages (snd s) sessionId = default [] (detail_messages session) ->
             getSessionMessages (snd (apply_events sessionId evs s)) sessionId
             = default [] (detail_messages session)).
  { unfold apply_events. induction evs as [|ev evs' IH]; intros [loc st0] H; [exact H|].
    cbn [fold_left]. apply IH.
    destruct ev; cbn [apply_event snd]; try exact H.
    rewrite getSessionMessages_mk. cbn [snd] in H. rewrite H. apply Hkeep. }
  apply Hgen. cbn [snd selectSession_resolve]. apply getSessionMessages_mk.
Qed.

(** ** The embedding on small inputs *)

Example split_newline_two_lines :
  JS.split_newline ("a" ++ String JS.newline "b" ++ String JS.newline EmptyString)
  = ["a"; "b"; EmptyString].
Proof. reflexivity. Qed.

Example split_newline_no_line_feed : JS.split_newline "abc" = ["abc"].
Proof. reflexivity. Qed.

Example compact_frame_roundtrip :
  CompactFrame.parse (CompactFrame.payload "done" "assistant_message_id" "m-42")
  = Some (EvDone "m-42").
Proof. reflexivity. Qed.

Example temporary_identifier :
  Message.id (userMessage "hello" 1714644000123 "2024-05-02T10:00:00.123Z")
  = "temp-1714644000123".
Proof. reflexivity. Qed.

Example toggle_pin_sorts :
  Session.id <$>
    sessions (togglePinSession Sample.getTime "s2" (Resolved true) Sample.store)
  = ["s3"; "s2"; "s1"].
Proof. vm_compute. reflexivity. Qed.

Example send_without_session_creates_one :
  let final := sendMessage CompactFrame.parse "hello"
                 (Resolved (Sample.session "s9" false "2024-05-02T10:00:00Z"))
                 Sample.clock (Body Sample.scenario_reads EndOfStream) initial_state in
  currentSessionId (fst final) = Some "s9"
  /\ Session.id <$> sessions (fst final) = ["s9"]
  /\ length (getSessionMessages (fst final) "s9") = 2%nat.
Proof. vm_compute. repeat split. Qed.

(** * Further properties of the chat store *)

(** ** Creating, looking up and removing sessions *)

(** X1.  Once [createSession] has resolved, [getCurrentSession] returns the
    created session, its message sequence is cached and empty, the session
    heads the list, and no other cache entry has changed. *)
Theorem createSession_then_lookup (session : Session.t) (st : ChatState) :
  let st' := fst (createSession_resolve (Resolved session) st) in
  getCurrentSession st' = Some session
  /\ sessionMessages st' !! Session.id session = Some []
  /\ sessions st' = session :: sessions st
  /\ (forall other, other <> Session.id session ->
        sessionMessages st' !! other = sessionMessages st !! other).
Proof.
  cbn zeta. cbn [createSession_resolve fst]. repeat split.
  - unfold getCurrentSession.
    cbn [currentSessionId sessions List.find]. now rewrite String.eqb_refl.
  - cbn [sessionMessages]. apply lookup_insert_eq.
  - intros other Hne. cbn [sessionMessages]. apply lookup_insert_ne. congruence.
Qed.

(** X2.  Creating a session under an identifier the store does not know
    and deleting it again gives back the session list and the message
    cache; the current pointer is then null, whatever it was before. *)
Theorem create_then_delete_restores (session : Session.t) (st : ChatState) :
  Forall (fun s => Session.id s <> Session.id session) (sessions st) ->
  sessionMessages st !! Session.id session = None ->
  let st' := deleteSession (Session.id session) (Resolved tt)
               (fst (createSession_resolve (Resolved session) st)) in
  sessions st' = sessions st
  /\ sessionMessages st' = sessionMessages st
  /\ currentSessionId st' = None.
Proof.
  intros Hfresh Hnone. cbn zeta.
  cbn [createSession_resolve fst deleteSession sessions sessionMessages currentSessionId].
  split; [|split].
  - unfold remove_session. cbn [List.filter]. rewrite String.eqb_refl. cbn [negb].
    apply filter_all. eapply List.Forall_impl; [|exact Hfresh].
    intros s Hs. cbn beta. apply negb_true_iff, String.eqb_neq, Hs.
  - apply delete_insert_id, Hnone.
  - unfold clear_if_current. now rewrite String.eqb_refl.
Qed.

Lemma create_then_delete_restores_witness :
  Forall (fun s => Session.id s <> Session.id Fixture.fresh) (sessions Sample.store)
  /\ sessionMessages Sample.store !! Session.id Fixture.fresh = None
  /\ sessions (deleteSession "s9" (Resolved tt)
                 (fst (createSession_resolve (Resolved Fixture.fresh) Sample.store)))
     = sessions Sample.store
  /\ sessionMessages (deleteSession "s9" (Resolved tt)
                        (fst (createSession_resolve (Resolved Fixture.fresh) Sample.store)))
     = sessionMessages Sample.store.
Proof.
  assert (H1 : Forall (fun s => Session.id s <> Session.id Fixture.fresh)
                 (sessions Sample.store))
    by (cbn; repeat constructor; discriminate).
  assert (H2 : sessionMessages Sample.store !! Session.id Fixture.fresh = None)
    by (vm_compute; reflexivity).
  pose proof (create_then_delete_restores Fixture.fresh Sample.store H1 H2) as H.
  cbv zeta in H. destruct H as (Hs & Hm & _).
  split; [exact H1|]. split; [exact H2|]. split; [exact Hs | exact Hm].
Defined.

(** X3.  [getCurrentSession] returns an entry of the list that carries the
    current identifier, and returns null exactly when the list has no such
    entry (so also when the pointer is null, and when the pointer has
    outlived its session). *)
Theorem getCurrentSession_found_iff (st : ChatState) :
  (forall s, getCurrentSession st = Some s ->
             In s (sessions st) /\ currentSessionId st = Some (Session.id s))
  /\ (getCurrentSession st = None <->
      forall s, In s (sessions st) -> currentSessionId st <> Some (Session.id s)).
Proof.
  unfold getCurrentSession. destruct (currentSessionId st) as [cur|]; split.
  - intros s Hfind. apply find_some in Hfind. destruct Hfind as [Hin Heq].
    apply String.eqb_eq in Heq. split; [exact Hin | congruence].
  - split.
    + intros Hnone s Hin Heq. pose proof (find_none _ _ Hnone s Hin) as Hf.
      cbn beta in Hf. apply String.eqb_neq in Hf. congruence.
    + intros Hall.
      destruct (List.find _ (sessions st)) as [s|] eqn:Hfind; [|reflexivity].
      apply find_some in Hfind. destruct Hfind as [Hin Heq].
      apply String.eqb_eq in Heq. exfalso. apply (Hall s Hin). congruence.
  - discriminate.
  - split; [discriminate | reflexivity].
Qed.

Lemma remove_session_twice (sessionId : string) (l : list Session.t) :
  remove_session sessionId (remove_session sessionId l) = remove_session sessionId l.
Proof.
  unfold remove_session. apply filter_all. rewrite List.Forall_forall.
  intros s Hs. apply filter_In in Hs. apply Hs.
Qed.

Lemma clear_if_current_twice (sessionId : string) (cur : option string) :
  clear_if_current sessionId (clear_if_current sessionId cur)
  = clear_if_current sessionId cur.
Proof.
  destruct cur as [c|]; [|reflexivity]. cbn [clear_if_current].
  destruct (String.eqb c sessionId) eqn:E; [reflexivity|].
  cbn [clear_if_current]. now rewrite E.
Qed.

(** X4.  Deleting (or archiving) a session a second time changes nothing:
    the state after two successful removals of an identifier is the state
    after one. *)
Theorem remove_twice_is_remove_once (sessionId : string) (st : ChatState) :
  deleteSession sessionId (Resolved tt) (deleteSession sessionId (Resolved tt) st)
  = deleteSession sessionId (Resolved tt) st
  /\ archiveSession sessionId (Resolved tt) (archiveSession sessionId (Resolved tt) st)
     = archiveSession sessionId (Resolved tt) st.
Proof.
  split; cbn [deleteSession archiveSession sessions currentSessionId sessionMessages
              isLoadingSessions isLoadingMessages isSending isGeneratingTitle
              streamingContent currentPhase error];
    rewrite remove_session_twice, clear_if_current_twice;
    rewrite ?delete_delete_eq; reflexivity.
Qed.

(** X5.  A successful removal of an identifier that is neither in the
    list, nor current, nor cached leaves the store as it is. *)
Theorem remove_unknown_changes_nothing (sessionId : string) (st : ChatState) :
  Forall (fun s => Session.id s <> sessionId) (sessions st) ->
  currentSessionId st <> Some sessionId ->
  sessionMessages st !! sessionId = None ->
  deleteSession sessionId (Resolved tt) st = st
  /\ archiveSession sessionId (Resolved tt) st = st.
Proof.
  intros Hlist Hcur Hcache.
  assert (Hl : remove_session sessionId (sessions st) = sessions st).
  { apply filter_all. eapply List.Forall_impl; [|exact Hlist].
    intros s Hs. cbn beta. apply negb_true_iff, String.eqb_neq, Hs. }
  assert (Hc : clear_if_current sessionId (currentSessionId st) = currentSessionId st).
  { unfold clear_if_current. destruct (currentSessionId st) as [c|]; [|reflexivity].
    destruct (String.eqb_spec c sessionId); [congruence | reflexivity]. }
  split; cbn [deleteSession archiveSession]; rewrite Hl, Hc, ?(delete_id _ _ Hcache);
    destruct st; reflexivity.
Qed.

Lemma remove_unknown_changes_nothing_witness :
  Forall (fun s => Session.id s <> "s9") (sessions Sample.store)
  /\ currentSessionId Sample.store <> Some "s9"
  /\ sessionMessages Sample.store !! "s9" = None
  /\ deleteSession "s9" (Resolved tt) Sample.store = Sample.store.
Proof.
  assert (H1 : Forall (fun s => Session.id s <> "s9") (sessions Sample.store))
    by (cbn; repeat constructor; discriminate).
  assert (H2 : currentSessionId Sample.store <> Some "s9") by discriminate.
  assert (H3 : sessionMessages Sample.store !! "s9" = None) by (vm_compute; reflexivity).
  destruct (remove_unknown_changes_nothing "s9" Sample.store H1 H2 H3) as [Hd _].
  repeat split; assumption.
Defined.

(** ** Updating and pinning *)

Lemma default_twice {A : Type} (x : A) (o : option A) :
  default (default x o) o = default x o.
Proof. destruct o; reflexivity. Qed.

Lemma spread_twice (s : Session.t) (p : Session.partial) :
  Session.spread (Session.spread s p) p = Session.spread s p.
Proof.
  unfold Session.spread.
  cbn [Session.id Session.title Session.description Session.model_name
       Session.is_archived Session.is_pinned Session.tags Session.total_tokens_used
       Session.created_at Session.updated_at Session.message_count
       Session.last_message_preview].
  now rewrite !default_twice.
Qed.

(** X6.  Applying the same successful [updateSession] reply a second time
    changes nothing (also when the reply renames the entry). *)
Theorem updateSession_twice_is_once (sessionId : string) (data : Session.partial)
    (st : ChatState) :
  updateSession sessionId (Resolved data) (updateSession sessionId (Resolved data) st)
  = updateSession sessionId (Resolved data) st.
Proof.
  cbn [updateSession sessions currentSessionId sessionMessages isLoadingSessions
       isLoadingMessages isSending isGeneratingTitle streamingContent currentPhase error].
  f_equal. rewrite map_map. apply map_ext. intros s.
  destruct (String.eqb (Session.id s) sessionId) eqn:E.
  - destruct (String.eqb (Session.id (Session.spread s data)) sessionId);
      [apply spread_twice | reflexivity].
  - now rewrite E.
Qed.

(** X7.  A successful [togglePinSession] leaves the list ordered by the
    pin/recency rule whatever its order was before, keeps exactly the
    identifiers it had (none lost, none doubled), gives every entry with
    the toggled identifier the returned flag, and leaves the other entries
    as they were. *)
Theorem togglePinSession_sorts_any_list (Date_getTime : string -> Z)
    (sessionId : string) (pinned : bool) (st : ChatState) :
  let l' := sessions (togglePinSession Date_getTime sessionId (Resolved pinned) st) in
  registry_ordered Date_getTime l'
  /\ Permutation (map Session.id l') (map Session.id (sessions st))
  /\ (forall s, In s l' -> Session.id s = sessionId -> Session.is_pinned s = pinned)
  /\ (forall s, In s l' -> Session.id s <> sessionId -> In s (sessions st)).
Proof.
  cbn zeta. cbn [togglePinSession sessions].
  split; [apply sort_registry_ordered|]. split; [|split].
  - rewrite (Permutation_map Session.id (sort_Permutation _ _)), map_map.
    erewrite map_ext; [reflexivity|].
    intros s. cbn beta. destruct (String.eqb (Session.id s) sessionId); reflexivity.
  - intros s Hin Hid.
    apply (Permutation_in _ (sort_Permutation _ _)), in_map_iff in Hin.
    destruct Hin as [s0 [Hs0 _]].
    destruct (String.eqb_spec (Session.id s0) sessionId); subst s; [reflexivity|].
    contradiction.
  - intros s Hin Hid.
    apply (Permutation_in _ (sort_Permutation _ _)), in_map_iff in Hin.
    destruct Hin as [s0 [Hs0 Hin0]].
    destruct (String.eqb_spec (Session.id s0) sessionId); subst s; [|exact Hin0].
    contradiction.
Qed.

Lemma sort_of_sorted {A : Type} (cmp : A -> A -> Z) (l : list A) :
  StronglySorted (fun a b => (cmp a b <= 0)%Z) l -> JSArray.sort cmp l = l.
Proof.
  induction 1 as [|x l Hl IH Hx]; [reflexivity|].
  cbn [JSArray.sort]. rewrite IH.
  destruct l as [|y l']; [reflexivity|].
  cbn [JSArray.insert]. inversion Hx as [|? ? Hxy _]; subst.
  apply Z.leb_le in Hxy. now rewrite Hxy.
Qed.

(** X8.  On a list that is ordered by the pin/recency rule, a successful
    [togglePinSession] of an identifier the list does not hold changes
    nothing in the store. *)
Theorem togglePinSession_unknown_keeps_list (Date_getTime : string -> Z)
    (sessionId : string) (pinned : bool) (st : ChatState) :
  registry_ordered Date_getTime (sessions st) ->
  Forall (fun s => Session.id s <> sessionId) (sessions st) ->
  togglePinSession Date_getTime sessionId (Resolved pinned) st = st.
Proof.
  intros Hord Hno. cbn [togglePinSession].
  assert (Hmap : map (fun s => if String.eqb (Session.id s) sessionId
                               then Session.set_is_pinned pinned s else s) (sessions st)
                 = sessions st).
  { induction Hno as [|s l Hs Hl IH]; [reflexivity|].
    cbn [map]. apply String.eqb_neq in Hs. rewrite Hs. f_equal.
    apply IH. now inversion Hord. }
  rewrite Hmap, sort_of_sorted; [destruct st; reflexivity|].
  unfold registry_ordered in Hord.
  induction Hord as [|a l Hl IH Ha]; constructor.
  - apply IH.
    + now inversion Hno.
    + inversion Hno; subst. cbn [map] in Hmap. injection Hmap as _ Hm. exact Hm.
  - eapply List.Forall_impl; [|exact Ha].
    intros b Hb. apply compare_sessions_rule, Hb.
Qed.

Lemma togglePinSession_unknown_keeps_list_witness :
  registry_ordered Sample.getTime (sessions Sample.store)
  /\ Forall (fun s => Session.id s <> "s9") (sessions Sample.store)
  /\ togglePinSession Sample.getTime "s9" (Resolved true) Sample.store = Sample.store.
Proof.
  assert (H : Forall (fun s => Session.id s <> "s9") (sessions Sample.store))
    by (cbn; repeat constructor; discriminate).
  split; [exact sample_store_ordered|]. split; [exact H|].
  exact (togglePinSession_unknown_keeps_list Sample.getTime "s9" true Sample.store
           sample_store_ordered H).
Defined.

(** ** More on one send *)

Lemma complete_pair (sessionId : string) (s : StreamLocals * ChatState) :
  (let (loc, st) := s in complete sessionId (loc, st)) = complete sessionId s.
Proof. destruct s; reflexivity. Qed.

Lemma complete_effects (sessionId : string) (s : StreamLocals * ChatState) :
  snd (complete sessionId s)
  = ((if (length (getSessionMessages (fst (complete sessionId s)) sessionId) <=? 2)%nat
      then [SetTimeout_generateSessionTitle sessionId 500] else [])
       ++ [Pending_fetchSessions])%list.
Proof. destruct s as [loc st]. reflexivity. Qed.

Lemma update_streaming_last_settled (f : Message.t -> Message.t) (l : list Message.t) :
  (forall m, Message.streaming (f m) = false) ->
  update_streaming_last f (update_streaming_last f l) = update_streaming_last f l.
Proof.
  intros Hf. induction l as [|m l IH]; [reflexivity|].
  destruct l as [|m' l'].
  - cbn [update_streaming_last]. destruct (Message.streaming m) eqn:E.
    + now rewrite Hf.
    + now rewrite E.
  - change (update_streaming_last f (m :: m' :: l'))
      with (m :: update_streaming_last f (m' :: l')).
    destruct (update_streaming_last f (m' :: l')) as [|x r] eqn:E.
    + destruct l'; discriminate.
    + change (update_streaming_last f (m :: x :: r))
        with (m :: update_streaming_last f (x :: r)).
      now rewrite IH.
Qed.

(** X9.  [sendMessage] without a current session whose [createSession]
    fails sends nothing: no message is added to any sequence, the sending
    flag is not raised, nothing is scheduled, and the error slot holds the
    creation error. *)
Theorem sendMessage_create_failure_sends_nothing
    (parse_frame : string -> option StreamEvent) (content : string) (e : Thrown)
    (clock : Clock) (transport : Transport) (st : ChatState) :
  no_session (currentSessionId st) = true ->
  let r := sendMessage parse_frame content (Rejected e) clock transport st in
  sessionMessages (fst r) = sessionMessages st
  /\ sessions (fst r) = sessions st
  /\ currentSessionId (fst r) = currentSessionId st
  /\ isSending (fst r) = isSending st
  /\ error (fst r) = Some (error_message e "Failed to create session")
  /\ snd r = [].
Proof.
  intros Hno. unfold sendMessage. rewrite Hno. cbn. repeat split.
Qed.

Lemma sendMessage_create_failure_sends_nothing_witness :
  no_session (currentSessionId initial_state) = true
  /\ sessionMessages
       (fst (sendMessage CompactFrame.parse "hello" (Rejected ThrownOther) Sample.clock
               (Body Sample.scenario_reads EndOfStream) initial_state))
     = sessionMessages initial_state
  /\ error
       (fst (sendMessage CompactFrame.parse "hello" (Rejected ThrownOther) Sample.clock
               (Body Sample.scenario_reads EndOfStream) initial_state))
     = Some "Failed to create session".
Proof.
  assert (H : no_session (currentSessionId initial_state) = true) by reflexivity.
  pose proof (sendMessage_create_failure_sends_nothing CompactFrame.parse "hello"
                ThrownOther Sample.clock (Body Sample.scenario_reads EndOfStream)
                initial_state H) as Hr.
  cbv zeta in Hr. destruct Hr as (H1 & _ & _ & _ & H5 & _).
  split; [exact H|]. split; [exact H1 | exact H5].
Defined.

(** X10.  [sendMessage] without a current session whose [createSession]
    succeeds, on a stream read to its end: the new session heads the list
    and is current, its sequence holds exactly the two messages of this
    send, no other sequence has changed, and a title generation is
    scheduled. *)
Theorem sendMessage_creates_session_for_first_message
    (parse_frame : string -> option StreamEvent) (content : string) (session : Session.t)
    (clock : Clock) (reads : list string) (st : ChatState) :
  no_session (currentSessionId st) = true ->
  let r := sendMessage parse_frame content (Resolved session) clock
             (Body reads EndOfStream) st in
  sessions (fst r) = session :: sessions st
  /\ currentSessionId (fst r) = Some (Session.id session)
  /\ length (getSessionMessages (fst r) (Session.id session)) = 2%nat
  /\ (Message.content <$> getSessionMessages (fst r) (Session.id session))
     = [content; streamed_text (decode_reads parse_frame reads)]
  /\ (forall other, other <> Session.id session ->
        sessionMessages (fst r) !! other = sessionMessages st !! other)
  /\ In (SetTimeout_generateSessionTitle (Session.id session) 500) (snd r).
Proof.
  intros Hno. unfold sendMessage. rewrite Hno.
  cbn [createSession_resolve createSession_begin].
  rewrite read_loop_events, complete_pair. cbn zeta.
  rewrite complete_effects, completed_send_state.
  cbn [sessions currentSessionId sessionMessages].
  rewrite !getSessionMessages_mk, insert_insert_eq.
  cbn [app length fmap list_fmap Message.content userMessage].
  repeat split.
  - intros other Hne. rewrite !lookup_insert_ne by congruence. reflexivity.
  - left. reflexivity.
Qed.

Lemma sendMessage_creates_session_for_first_message_witness :
  no_session (currentSessionId initial_state) = true
  /\ sessions (fst (sendMessage CompactFrame.parse "hello" (Resolved Fixture.fresh)
                      Sample.clock (Body Sample.scenario_reads EndOfStream)
                      initial_state))
     = [Fixture.fresh]
  /\ length (getSessionMessages
               (fst (sendMessage CompactFrame.parse "hello" (Resolved Fixture.fresh)
                       Sample.clock (Body Sample.scenario_reads EndOfStream)
                       initial_state)) "s9") = 2%nat.
Proof.
  assert (H : no_session (currentSessionId initial_state) = true) by reflexivity.
  pose proof (sendMessage_creates_session_for_first_message CompactFrame.parse "hello"
                Fixture.fresh Sample.clock Sample.scenario_reads initial_state H) as Hr.
  cbv zeta in Hr. destruct Hr as (H1 & _ & H3 & _).
  split; [exact H|]. split; [exact H1 | exact H3].
Defined.

(** X11.  Every way out of a send on the current session clears the
    sending flag and the phase.  The error slot ends up null after a stream
    read to its end, whatever [error] events it carried (the list refresh
    that starts at once clears it), and holds the thrown error's message
    (or the fixed text of the failed check) after a failure. *)
Theorem sendMessage_exits (parse_frame : string -> option StreamEvent)
    (sessionId content : string) (create : Reply Session.t) (clock : Clock)
    (transport : Transport) (st : ChatState) :
  currentSessionId st = Some sessionId ->
  JS.truthy sessionId = true ->
  let st' := fst (sendMessage parse_frame content create clock transport st) in
  isSending st' = false
  /\ currentPhase st' = None
  /\ error st'
     = match transport with
       | Body _ EndOfStream => None
       | Body _ (ReadThrows e) => Some (error_message e "Failed to send message")
       | RequestThrows e => Some (error_message e "Failed to send message")
       | ResponseNotOk => Some "Stream request failed"
       | NoReader => Some "No reader available"
       end.
Proof.
  intros Hcur Htruthy.
  rewrite (sendMessage_on_current parse_frame sessionId _ _ _ _ _ Hcur Htruthy).
  pose proof (fun e => failed_send_state sessionId content clock [] e st) as Hfail0.
  cbn [apply_events fold_left snd] in Hfail0.
  destruct transport as [e| | |reads [|e]]; cbn [fst];
    rewrite ?Hfail0, ?failed_send_state, ?completed_send_state; repeat split.
Qed.

Lemma sendMessage_exits_witness :
  currentSessionId Sample.store = Some "s1"
  /\ JS.truthy "s1" = true
  /\ isSending (fst (sendMessage CompactFrame.parse "hello" (Rejected ThrownOther)
                       Sample.clock (Body Sample.scenario_reads (ReadThrows ThrownOther))
                       Sample.store)) = false
  /\ error (fst (sendMessage CompactFrame.parse "hello" (Rejected ThrownOther)
                   Sample.clock (Body Sample.scenario_reads (ReadThrows ThrownOther))
                   Sample.store)) = Some "Failed to send message".
Proof.
  assert (H1 : currentSessionId Sample.store = Some "s1") by reflexivity.
  assert (H2 : JS.truthy "s1" = true) by reflexivity.
  pose proof (sendMessage_exits CompactFrame.parse "s1" "hello" (Rejected ThrownOther)
                Sample.clock (Body Sample.scenario_reads (ReadThrows ThrownOther))
                Sample.store H1 H2) as Hr.
  cbv zeta in Hr. destruct Hr as (Hs & _ & He).
  repeat split; assumption.
Defined.

(** X12.  Finalizing is idempotent: the [set] that closes a stream, applied
    a second time with the same recorded identifier, changes nothing. *)
Theorem finalize_twice_is_once (sessionId : string) (loc : StreamLocals) (st : ChatState) :
  finalize sessionId loc (finalize sessionId loc st) = finalize sessionId loc st.
Proof.
  unfold finalize at 1 2.
  cbn [sessions currentSessionId sessionMessages isLoadingSessions isLoadingMessages
       isSending isGeneratingTitle streamingContent currentPhase error].
  rewrite getSessionMessages_mk, insert_insert_eq, update_streaming_last_settled;
    [reflexivity|].
  intros m. destruct (JS.truthy (finalMessageId loc)); reflexivity.
Qed.

(** X13.  A completed send on the current session schedules the title
    generation exactly when the session held no message before the send;
    the list refresh is started in every case. *)
Theorem title_generated_for_first_turn_only (parse_frame : string -> option StreamEvent)
    (sessionId content : string) (create : Reply Session.t) (clock : Clock)
    (reads : list string) (st : ChatState) :
  currentSessionId st = Some sessionId ->
  JS.truthy sessionId = true ->
  snd (sendMessage parse_frame content create clock (Body reads EndOfStream) st)
  = match getSessionMessages st sessionId with
    | [] => [SetTimeout_generateSessionTitle sessionId 500; Pending_fetchSessions]
    | _ :: _ => [Pending_fetchSessions]
    end.
Proof.
  intros Hcur Htruthy.
  rewrite (sendMessage_on_current parse_frame sessionId _ _ _ _ _ Hcur Htruthy).
  rewrite complete_effects, completed_send_state, getSessionMessages_mk.
  rewrite length_app. cbn [length].
  destruct (getSessionMessages st sessionId) as [|m l]; [reflexivity|].
  cbn [length]. replace (S (length l) + 2)%nat with (S (S (S (length l)))) by lia.
  reflexivity.
Qed.

Lemma title_generated_for_first_turn_only_witness :
  currentSessionId Fixture.busy_store = Some "s2"
  /\ JS.truthy "s2" = true
  /\ snd (sendMessage CompactFrame.parse "hello" (Rejected ThrownOther) Sample.clock
            (Body Sample.scenario_reads EndOfStream) Fixture.busy_store)
     = [Pending_fetchSessions].
Proof.
  assert (H1 : currentSessionId Fixture.busy_store = Some "s2") by reflexivity.
  assert (H2 : JS.truthy "s2" = true) by reflexivity.
  split; [exact H1|]. split; [exact H2|].
  rewrite (title_generated_for_first_turn_only CompactFrame.parse "s2" "hello"
             (Rejected ThrownOther) Sample.clock Sample.scenario_reads
             Fixture.busy_store H1 H2).
  vm_compute. reflexivity.
Defined.

(** ** Sends that follow one another *)

Lemma userMessage_temporary (content : string) (now : N) (iso : string) :
  JS.startsWith (Message.id (userMessage content now iso)) "temp-" = true.
Proof. reflexivity. Qed.

(** X14.  A failed send that follows a completed one on the same session
    (no refresh in between), whichever way it fails, takes the completed
    turn's user message away with its own two messages: what is left is
    the sequence from before the first send without its messages whose
    identifier starts with "temp-", followed by the first turn's assistant
    message when that message was given an identifier that does not start
    with "temp-", and by nothing otherwise. *)
Theorem failed_send_after_completed_send (parse_frame : string -> option StreamEvent)
    (sessionId content content' : string) (create create' : Reply Session.t)
    (clock clock' : Clock) (reads : list string) (transport' : Transport)
    (st : ChatState) :
  currentSessionId st = Some sessionId ->
  JS.truthy sessionId = true ->
  (forall reads', transport' <> Body reads' EndOfStream) ->
  let done := last_done EmptyString (decode_reads parse_frame reads) in
  let st1 := fst (sendMessage parse_frame content create clock
                    (Body reads EndOfStream) st) in
  let st2 := fst (sendMessage parse_frame content' create' clock' transport' st1) in
  getSessionMessages st2 sessionId
  = (List.filter (fun m => negb (JS.startsWith (Message.id m) "temp-"))
       (getSessionMessages st sessionId)
       ++ (if JS.truthy done && negb (JS.startsWith done "temp-")
           then [Message.mk done assistant
                   (streamed_text (decode_reads parse_frame reads))
                   None None (iso_assistant clock) (Some false)]
           else []))%list.
Proof.
  intros Hcur Htruthy Hfails. cbn zeta.
  rewrite (sendMessage_on_current parse_frame sessionId content _ _ _ st Hcur Htruthy).
  rewrite sendMessage_on_current with (sessionId := sessionId);
    [|rewrite completed_send_state; exact Hcur|exact Htruthy].
  assert (Hleft : forall e evs,
             getSessionMessages
               (rollback sessionId e
                  (snd (apply_events sessionId evs
                          (initial_locals,
                           send_begin sessionId content' clock'
                             (fst (complete sessionId
                                     (apply_events sessionId
                                        (decode_reads parse_frame reads)
                                        (initial_locals,
                                         send_begin sessionId content clock st))))))))
               sessionId
             = (List.filter (fun m => negb (JS.startsWith (Message.id m) "temp-"))
                  (getSessionMessages st sessionId)
                  ++ (if JS.truthy (last_done EmptyString
                                      (decode_reads parse_frame reads))
                         && negb (JS.startsWith
                                    (last_done EmptyString
                                       (decode_reads parse_frame reads)) "temp-")
                      then [Message.mk
                              (last_done EmptyString (decode_reads parse_frame reads))
                              assistant
                              (streamed_text (decode_reads parse_frame reads))
                              None None (iso_assistant clock) (Some false)]
                      else []))%list).
  { intros e evs. rewrite failed_send_state, getSessionMessages_mk.
    rewrite completed_send_state, getSessionMessages_mk.
    rewrite List.filter_app. f_equal.
    cbn [List.filter]. rewrite userMessage_temporary. cbn [negb Message.id].
    destruct (JS.truthy (last_done EmptyString (decode_reads parse_frame reads)))
      eqn:Hd.
    - cbn [andb].
      destruct (JS.startsWith (last_done EmptyString (decode_reads parse_frame reads))
                  "temp-"); reflexivity.
    - reflexivity. }
  pose proof (fun e => Hleft e []) as Hleft0.
  cbn [apply_events fold_left snd] in Hleft0.
  destruct transport' as [e| | |reads' [|e]]; cbn [fst]; try apply Hleft0.
  - exfalso. apply (Hfails reads'). reflexivity.
  - apply Hleft.
Qed.

Lemma failed_send_after_completed_send_witness :
  currentSessionId Fixture.busy_store = Some "s2"
  /\ JS.truthy "s2" = true
  /\ (forall reads', ResponseNotOk <> Body reads' EndOfStream)
  /\ Message.id <$>
       getSessionMessages
         (fst (sendMessage CompactFrame.parse "again" (Rejected ThrownOther) Sample.clock'
                 ResponseNotOk
                 (fst (sendMessage CompactFrame.parse "hello" (Rejected ThrownOther)
                         Sample.clock (Body Sample.scenario_reads EndOfStream)
                         Fixture.busy_store)))) "s2"
     = ["m-1"; "m-2"; "m-42"].
Proof.
  assert (H1 : currentSessionId Fixture.busy_store = Some "s2") by reflexivity.
  assert (H2 : JS.truthy "s2" = true) by reflexivity.
  assert (H3 : forall reads', ResponseNotOk <> Body reads' EndOfStream)
    by (intros reads'; discriminate).
  split; [exact H1|]. split; [exact H2|]. split; [exact H3|].
  rewrite (failed_send_after_completed_send CompactFrame.parse "s2" "hello" "again"
             (Rejected ThrownOther) (Rejected ThrownOther) Sample.clock Sample.clock'
             Sample.scenario_reads ResponseNotOk Fixture.busy_store H1 H2 H3).
  vm_compute. reflexivity.
Defined.

(** ** Reads that end at line boundaries *)

Lemma last_of_app {A : Type} (l l' : list A) (d : A) :
  l' <> [] -> List.last (l ++ l')%list d = List.last l' d.
Proof.
  intros Hne. induction l as [|x l IH]; [reflexivity|].
  change ((x :: l) ++ l')%list with (x :: (l ++ l'))%list.
  rewrite last_cons; [exact IH|]. destruct l; [exact Hne | discriminate].
Qed.

Lemma body_text_aligned (reads : list string) :
  Forall line_aligned reads ->
  List.last (JS.split_newline (body_text reads)) EmptyString = EmptyString.
Proof.
  induction 1 as [|chunk reads Hchunk Hreads IH]; [reflexivity|].
  cbn [body_text fold_right]. fold (body_text reads).
  rewrite split_newline_app. unfold line_aligned in Hchunk. rewrite Hchunk.
  change (EmptyString ++ body_text reads) with (body_text reads).
  rewrite last_of_app by apply split_newline_nonempty. exact IH.
Qed.

(** X15.  When every read ends at a line boundary, the loop decodes from
    the reads exactly the events it would decode from the whole body in one
    read: how whole lines are grouped into reads does not matter. *)
Theorem aligned_reads_decode_as_one (parse_frame : string -> option StreamEvent)
    (reads : list string) :
  Forall line_aligned reads ->
  decode_reads parse_frame reads = decode_chunk parse_frame (body_text reads).
Proof.
  intros Haligned.
  rewrite decode_reads_line_aligned by exact Haligned.
  rewrite buffered_decode_body by reflexivity.
  change (EmptyString ++ body_text reads) with (body_text reads).
  unfold decode_chunk.
  rewrite (app_removelast_last EmptyString (split_newline_nonempty (body_text reads)))
    at 2.
  rewrite body_text_aligned by exact Haligned.
  rewrite flat_map_app. cbn. now rewrite app_nil_r.
Qed.

Lemma aligned_reads_decode_as_one_witness :
  Forall line_aligned Sample.scenario_reads
  /\ decode_reads CompactFrame.parse Sample.scenario_reads
     = decode_chunk CompactFrame.parse (body_text Sample.scenario_reads).
Proof.
  assert (H : Forall line_aligned Sample.scenario_reads)
    by (repeat constructor; vm_compute; reflexivity).
  split; [exact H|].
  exact (aligned_reads_decode_as_one CompactFrame.parse Sample.scenario_reads H).
Defined.

(** ** What a send leaves alone *)

(** X16.  When no message of the session carries a temporary identifier
    before the send, every failing way out of [sendMessage] (the request
    throws, the response is not ok, there is no reader, a read throws after
    any number of frames) leaves the session's sequence exactly as it was
    before the send. *)
Theorem failed_send_rolls_back (parse_frame : string -> option StreamEvent)
    (sessionId content : string) (create : Reply Session.t) (clock : Clock)
    (transport : Transport) (st : ChatState) :
  currentSessionId st = Some sessionId ->
  JS.truthy sessionId = true ->
  Forall (fun m => JS.startsWith (Message.id m) "temp-" = false)
    (getSessionMessages st sessionId) ->
  (forall reads, transport <> Body reads EndOfStream) ->
  getSessionMessages (fst (sendMessage parse_frame content create clock transport st))
    sessionId
  = getSessionMessages st sessionId.
Proof.
  intros Hcur Htruthy Hpre Hfails.
  rewrite (sendMessage_on_current parse_frame sessionId _ _ _ _ _ Hcur Htruthy).
  pose proof (fun e => failed_send_restores_without_temporary_ids
                         sessionId content clock [] e st Hpre) as H0.
  cbn zeta in H0. cbn [apply_events fold_left snd] in H0.
  destruct transport as [e| | |reads [|e]]; cbn [fst]; try apply H0.
  - exfalso. apply (Hfails reads). reflexivity.
  - apply (failed_send_restores_without_temporary_ids
             sessionId content clock _ e st Hpre).
Qed.

Lemma failed_send_rolls_back_witness :
  currentSessionId Fixture.busy_store = Some "s2"
  /\ JS.truthy "s2" = true
  /\ Forall (fun m => JS.startsWith (Message.id m) "temp-" = false)
       (getSessionMessages Fixture.busy_store "s2")
  /\ (forall reads, Body Sample.scenario_reads (ReadThrows ThrownOther)
                    <> Body reads EndOfStream)
  /\ getSessionMessages
       (fst (sendMessage CompactFrame.parse "hello" (Rejected ThrownOther) Sample.clock
               (Body Sample.scenario_reads (ReadThrows ThrownOther)) Fixture.busy_store))
       "s2"
     = getSessionMessages Fixture.busy_store "s2".
Proof.
  assert (H1 : currentSessionId Fixture.busy_store = Some "s2") by reflexivity.
  assert (H2 : JS.truthy "s2" = true) by reflexivity.
  assert (H3 : Forall (fun m => JS.startsWith (Message.id m) "temp-" = false)
                 (getSessionMessages Fixture.busy_store "s2"))
    by (vm_compute; repeat constructor).
  assert (H4 : forall reads, Body Sample.scenario_reads (ReadThrows ThrownOther)
                             <> Body reads EndOfStream) by (intros reads; discriminate).
  split; [exact H1|]. split; [exact H2|]. split; [exact H3|]. split; [exact H4|].
  exact (failed_send_rolls_back CompactFrame.parse "s2" "hello" (Rejected ThrownOther)
           Sample.clock _ Fixture.busy_store H1 H2 H3 H4).
Defined.

(** X17.  A send on the current session, whatever the transport does,
    changes no other session's sequence, leaves the session list and the
    current pointer as they are, and leaves no streaming message behind in
    its own sequence when it found none. *)
Theorem sendMessage_touches_only_its_session
    (parse_frame : string -> option StreamEvent)
    (sessionId content : string) (create : Reply Session.t) (clock : Clock)
    (transport : Transport) (st : ChatState) :
  currentSessionId st = Some sessionId ->
  JS.truthy sessionId = true ->
  let st' := fst (sendMessage parse_frame content create clock transport st) in
  (forall other, other <> sessionId ->
     sessionMessages st' !! other = sessionMessages st !! other)
  /\ sessions st' = sessions st
  /\ currentSessionId st' = currentSessionId st
  /\ (streaming_count (getSessionMessages st sessionId) = 0%nat ->
      streaming_count (getSessionMessages st' sessionId) = 0%nat).
Proof.
  intros Hcur Htruthy. cbn zeta. split; [|split; [|split]].
  - intros other Hne.
    rewrite (sendMessage_on_current parse_frame sessionId _ _ _ _ _ Hcur Htruthy).
    pose proof (fun e => failed_send_state sessionId content clock [] e st) as Hfail0.
    cbn [apply_events fold_left snd] in Hfail0.
    destruct transport as [e| | |reads [|e]]; cbn [fst];
      rewrite ?Hfail0, ?failed_send_state, ?completed_send_state;
      cbn [sessionMessages]; apply lookup_insert_ne; congruence.
  - rewrite (sendMessage_on_current parse_frame sessionId _ _ _ _ _ Hcur Htruthy).
    pose proof (fun e => failed_send_state sessionId content clock [] e st) as Hfail0.
    cbn [apply_events fold_left snd] in Hfail0.
    destruct transport as [e| | |reads [|e]]; cbn [fst];
      rewrite ?Hfail0, ?failed_send_state, ?completed_send_state; reflexivity.
  - rewrite (sendMessage_on_current parse_frame sessionId _ _ _ _ _ Hcur Htruthy).
    pose proof (fun e => failed_send_state sessionId content clock [] e st) as Hfail0.
    cbn [apply_events fold_left snd] in Hfail0.
    destruct transport as [e| | |reads [|e]]; cbn [fst];
      rewrite ?Hfail0, ?failed_send_state, ?completed_send_state; reflexivity.
  - intros Hpre.
    apply (send_leaves_no_streaming_message parse_frame sessionId content create clock
             transport st Hcur Htruthy Hpre).
Qed.

Lemma sendMessage_touches_only_its_session_witness :
  currentSessionId Sample.store = Some "s1"
  /\ JS.truthy "s1" = true
  /\ sessionMessages
       (fst (sendMessage CompactFrame.parse "hello" (Rejected ThrownOther) Sample.clock
               (Body Sample.scenario_reads EndOfStream) Sample.store)) !! "s2"
     = sessionMessages Sample.store !! "s2".
Proof.
  assert (H1 : currentSessionId Sample.store = Some "s1") by reflexivity.
  assert (H2 : JS.truthy "s1" = true) by reflexivity.
  pose proof (sendMessage_touches_only_its_session CompactFrame.parse "s1" "hello"
                (Rejected ThrownOther) Sample.clock
                (Body Sample.scenario_reads EndOfStream) Sample.store H1 H2) as Hr.
  cbv zeta in Hr. destruct Hr as (Hother & _).
  split; [exact H1|]. split; [exact H2|].
  apply Hother. discriminate.
Defined.

Lemma update_streaming_last_none (f : Message.t -> Message.t) (l : list Message.t) :
  Forall (fun m => Message.streaming m = false) l -> update_streaming_last f l = l.
Proof.
  induction 1 as [|m l Hm Hl IH]; [reflexivity|].
  cbn [update_streaming_last]. destruct l as [|m' l'].
  - now rewrite Hm.
  - now rewrite IH.
Qed.

(** X18.  Stream events and the closing [set] only ever change a trailing
    streaming message: on a sequence without streaming message (the
    placeholder gone, for instance replaced by a refresh that resolved
    during the stream) they leave the sequence, and every other sequence,
    as it is, so what was streamed never reaches the cache. *)
Theorem events_without_placeholder_change_nothing (sessionId : string)
    (evs : list StreamEvent) (loc : StreamLocals) (st : ChatState) :
  streaming_count (getSessionMessages st sessionId) = 0%nat ->
  let s := apply_events sessionId evs (loc, st) in
  getSessionMessages (snd s) sessionId = getSessionMessages st sessionId
  /\ getSessionMessages (finalize sessionId (fst s) (snd s)) sessionId
     = getSessionMessages st sessionId
  /\ (forall other, other <> sessionId ->
        sessionMessages (finalize sessionId (fst s) (snd s)) !! other
        = sessionMessages st !! other).
Proof.
  intros Hnone. apply streaming_count_zero in Hnone. cbn zeta.
  assert (Hgen : forall s0 : StreamLocals * ChatState,
             getSessionMessages (snd s0) sessionId = getSessionMessages st sessionId ->
             (forall other, other <> sessionId ->
                sessionMessages (snd s0) !! other = sessionMessages st !! other) ->
             getSessionMessages (snd (apply_events sessionId evs s0)) sessionId
             = getSessionMessages st sessionId
             /\ (forall other, other <> sessionId ->
                   sessionMessages (snd (apply_events sessionId evs s0)) !! other
                   = sessionMessages st !! other)).
  { unfold apply_events. induction evs as [|ev evs' IH]; intros [loc0 st0] H Ho;
      [split; assumption|].
    cbn [fold_left]. apply IH.
    - destruct ev; cbn [apply_event snd]; try exact H.
      rewrite getSessionMessages_mk. cbn [snd] in H. rewrite H.
      apply update_streaming_last_none, Hnone.
    - destruct ev; cbn [apply_event snd]; try exact Ho.
      intros other Hne. cbn [sessionMessages].
      rewrite lookup_insert_ne by congruence. apply Ho, Hne. }
  destruct (Hgen (loc, st) eq_refl (fun _ _ => eq_refl)) as [Hseq Hothers].
  split; [exact Hseq|]. split.
  - unfold finalize. rewrite getSessionMessages_mk, Hseq.
    apply update_streaming_last_none, Hnone.
  - intros other Hne. unfold finalize. cbn [sessionMessages].
    rewrite lookup_insert_ne by congruence. apply Hothers, Hne.
Qed.

Lemma events_without_placeholder_change_nothing_witness :
  streaming_count
    (getSessionMessages
       (selectSession_resolve "s2" (Resolved Sample.detail)
          (send_begin "s2" "hello" Sample.clock Fixture.busy_store)) "s2") = 0%nat
  /\ getSessionMessages
       (snd (apply_events "s2" Sample.scenario_events
               (initial_locals,
                selectSession_resolve "s2" (Resolved Sample.detail)
                  (send_begin "s2" "hello" Sample.clock Fixture.busy_store)))) "s2"
     = [Sample.message "m-1" user "ping"; Sample.message "m-2" assistant "pong";
        Sample.message "m-3" user "more"].
Proof.
  assert (H : streaming_count
                (getSessionMessages
                   (selectSession_resolve "s2" (Resolved Sample.detail)
                      (send_begin "s2" "hello" Sample.clock Fixture.busy_store)) "s2")
              = 0%nat) by (vm_compute; reflexivity).
  split; [exact H|].
  destruct (events_without_placeholder_change_nothing "s2" Sample.scenario_events
              initial_locals _ H) as [Hseq _].
  rewrite Hseq. vm_compute. reflexivity.
Defined.

(** ** The page's effect and the pointer *)

(** X19.  The effect of the chat page calls [selectSession] only for a
    route identifier that is not the current one.  So it stops once a
    selection has resolved, and when a late refresh of another session has
    moved the pointer away from the route's session, it selects the route's
    session again. *)
Theorem page_effect_follows_route (route other : string) (session : SessionDetail)
    (st : ChatState) :
  JS.truthy route = true ->
  other <> route ->
  page_selects (Some route) (selectSession_resolve route (Resolved session) st) = None
  /\ page_selects (Some route) (selectSession_resolve other (Resolved session) st)
     = Some route
  /\ page_selects None st = None.
Proof.
  intros Htruthy Hne. unfold page_selects.
  cbn [selectSession_resolve currentSessionId]. rewrite Htruthy.
  rewrite String.eqb_refl. repeat split.
  destruct (String.eqb_spec route other); [congruence | reflexivity].
Qed.

Lemma page_effect_follows_route_witness :
  JS.truthy "s1" = true
  /\ "s2" <> "s1"
  /\ page_selects (Some "s1") (selectSession_resolve "s2" (Resolved Sample.detail)
                                 Sample.store) = Some "s1".
Proof.
  assert (H1 : JS.truthy "s1" = true) by reflexivity.
  assert (H2 : "s2" <> "s1") by discriminate.
  destruct (page_effect_follows_route "s1" "s2" Sample.detail Sample.store H1 H2)
    as (_ & H & _).
  repeat split; assumption.
Defined.

(** * Properties of the auth store *)

(** X20.  [login] leaves the store authenticated exactly when the login
    request succeeded (or the store was authenticated before), but it
    returns normally only when the profile request succeeded too: it never
    leaves the loading flag set, and it sets the error slot exactly when it
    throws. *)
Theorem login_authenticated_iff (tokens : Auth.Outcome Auth.Tokens)
    (me : Auth.Outcome Auth.User) (st : Auth.AuthState) :
  let r := Auth.login tokens me st in
  (Auth.isAuthenticated (fst r) = true
   <-> (exists t, tokens = Auth.Done t) \/ Auth.isAuthenticated st = true)
  /\ (snd r = None <-> exists t u, tokens = Auth.Done t /\ me = Auth.Done u)
  /\ Auth.isLoading (fst r) = false
  /\ (Auth.error (fst r) = None <-> snd r = None).
Proof.
  destruct tokens as [t|f], me as [u|f']; cbn; repeat split;
    try discriminate; try tauto; eauto;
    try (intros [[t0 H]|H]; [discriminate | exact H]);
    try (intros (t0 & u0 & H1 & H2); discriminate).
Qed.

(** X21.  A login whose profile request fails after the tokens arrived
    throws and records the error, yet the store holds the new tokens and is
    authenticated: the private routes render, with the user that was there
    before (none after a logout). *)
Theorem login_profile_failure_stays_authenticated (t : Auth.Tokens) (f : Auth.Failure)
    (st : Auth.AuthState) :
  let r := Auth.login (Auth.Done t) (Auth.Failed f) st in
  snd r = Some f
  /\ Auth.error (fst r) = Some (Auth.failure_message f "Login failed")
  /\ Auth.accessToken (fst r) = Some (Auth.access_token t)
  /\ Auth.refreshToken (fst r) = Some (Auth.refresh_token t)
  /\ Auth.user (fst r) = Auth.user st
  /\ Auth.PrivateRoute (fst r) = Auth.Children
  /\ Auth.PublicRoute (fst r) = Auth.NavigateTo "/chat"
  /\ Auth.saved_isAuthenticated (Auth.partialize (fst r)) = true.
Proof. cbn. repeat split. Qed.

(** X22.  A login whose first request fails touches neither the tokens,
    nor the user, nor the authenticated flag: a failed attempt does not log
    out whoever was logged in.  The message is the server's detail when
    there is a non-empty one, else "Login failed". *)
Theorem login_failure_keeps_session (f : Auth.Failure) (me : Auth.Outcome Auth.User)
    (st : Auth.AuthState) :
  let r := Auth.login (Auth.Failed f) me st in
  Auth.partialize (fst r) = Auth.partialize st
  /\ Auth.PrivateRoute (fst r) = Auth.PrivateRoute st
  /\ (exists m, Auth.error (fst r) = Some m /\ m <> EmptyString)
  /\ (forall d, f = Auth.WithResponse (Some d) -> d <> EmptyString ->
                Auth.error (fst r) = Some d).
Proof.
  cbn. repeat split.
  - eexists. split; [reflexivity|].
    destruct f as [[d|]|]; cbn; try discriminate.
    destruct d; cbn; discriminate.
  - intros d -> Hd. cbn. destruct d; [contradiction | reflexivity].
Qed.

(** X23.  The logged-out state is stable: after [logout], from any state,
    nothing that is persisted is left, [fetchUser] does nothing (there is no
    access token to try), and [refreshAuth] and a second [logout] give the
    same state again, whatever the server would answer. *)
Theorem logged_out_is_stable (me : Auth.Outcome Auth.User)
    (refresh reply : Auth.Outcome Auth.Tokens) (st : Auth.AuthState) :
  Auth.partialize (Auth.logout st) = Auth.partialize Auth.initial_state
  /\ Auth.fetchUser me refresh (Auth.logout st) = Auth.logout st
  /\ Auth.refreshAuth reply (Auth.logout st) = Auth.logout st
  /\ Auth.logout (Auth.logout st) = Auth.logout st
  /\ Auth.PrivateRoute (Auth.logout st) = Auth.NavigateTo "/login".
Proof. repeat split. Qed.

(** X24.  [refreshAuth] is all or nothing: either the refresh token was
    there and the request succeeded, and then only the two tokens change;
    or the store ends up logged out.  It never keeps an old access token
    after a failed refresh. *)
Theorem refreshAuth_all_or_nothing (reply : Auth.Outcome Auth.Tokens)
    (st : Auth.AuthState) :
  (exists t, reply = Auth.Done t
             /\ Auth.missing (Auth.refreshToken st) = false
             /\ Auth.refreshAuth reply st
                = Auth.mkAuthState (Auth.user st) (Some (Auth.access_token t))
                    (Some (Auth.refresh_token t)) (Auth.isAuthenticated st)
                    (Auth.isLoading st) (Auth.error st))
  \/ ((Auth.missing (Auth.refreshToken st) = true \/ exists f, reply = Auth.Failed f)
      /\ Auth.refreshAuth reply st = Auth.logout st).
Proof.
  unfold Auth.refreshAuth.
  destruct (Auth.missing (Auth.refreshToken st)) eqn:Hm.
  - right. split; [left|]; reflexivity.
  - destruct reply as [t|f].
    + left. exists t. repeat split.
    + right. split; [right; exists f|]; reflexivity.
Qed.

(** X25.  [fetchUser] never records an error and never authenticates: the
    error slot afterwards is the one from before or null, the loading flag
    is untouched, the store is authenticated afterwards only if it was
    before; without an access token it changes nothing at all. *)
Theorem fetchUser_is_quiet (me : Auth.Outcome Auth.User)
    (refresh : Auth.Outcome Auth.Tokens) (st : Auth.AuthState) :
  let st' := Auth.fetchUser me refresh st in
  (Auth.error st' = Auth.error st \/ Auth.error st' = None)
  /\ Auth.isLoading st' = Auth.isLoading st
  /\ (Auth.isAuthenticated st' = true -> Auth.isAuthenticated st = true)
  /\ (Auth.missing (Auth.accessToken st) = true -> st' = st).
Proof.
  cbn zeta. unfold Auth.fetchUser, Auth.refreshAuth.
  destruct (Auth.missing (Auth.accessToken st)) eqn:Ha.
  - repeat split; auto.
  - destruct me as [u|f].
    + cbn. repeat split; auto. discriminate.
    + destruct (Auth.missing (Auth.refreshToken st)); [|destruct refresh as [t|f']];
        cbn; repeat split; auto; discriminate.
Qed.

(** X26.  When the registration request succeeded and the login that
    follows fails, [register] throws the login's error and reports it as a
    failed registration (the detail when there is a non-empty one, else
    "Registration failed"); if only the profile request of that login
    failed, the store is authenticated all the same.  When the registration
    request itself fails, nothing that is persisted changes. *)
Theorem register_reports_login_failure (f : Auth.Failure) (t : Auth.Tokens)
    (me : Auth.Outcome Auth.User) (tokens : Auth.Outcome Auth.Tokens)
    (st : Auth.AuthState) :
  let no_login := Auth.register (Auth.Done tt) (Auth.Failed f) me st in
  let no_profile := Auth.register (Auth.Done tt) (Auth.Done t) (Auth.Failed f) st in
  let no_account := Auth.register (Auth.Failed f) tokens me st in
  (snd no_login = Some f
   /\ Auth.error (fst no_login) = Some (Auth.failure_message f "Registration failed")
   /\ Auth.partialize (fst no_login) = Auth.partialize st)
  /\ (snd no_profile = Some f
      /\ Auth.error (fst no_profile)
         = Some (Auth.failure_message f "Registration failed")
      /\ Auth.isAuthenticated (fst no_profile) = true
      /\ Auth.accessToken (fst no_profile) = Some (Auth.access_token t))
  /\ (snd no_account = Some f
      /\ Auth.error (fst no_account)
         = Some (Auth.failure_message f "Registration failed")
      /\ Auth.partialize (fst no_account) = Auth.partialize st)
  /\ Auth.isLoading (fst no_login) = false
  /\ Auth.isLoading (fst no_profile) = false
  /\ Auth.isLoading (fst no_account) = false.
Proof. cbn. repeat split. Qed.

(** * Properties of the sidebar's grouping *)

Section SidebarFacts.

Variable toLowerCase : string -> string.

Lemma filter_pinned_partition (l : list Session.t) :
  Permutation
    (List.filter (fun s => Session.is_pinned s) l
       ++ List.filter (fun s => negb (Session.is_pinned s)) l)%list
    l.
Proof.
  induction l as [|s l IH]; [reflexivity|].
  cbn [List.filter]. destruct (Session.is_pinned s); cbn [negb].
  - cbn [app]. now constructor.
  - rewrite <- Permutation_middle. now constructor.
Qed.

End SidebarFacts.

(** X27.  The two groups of the sidebar split what the search lets
    through: together they hold each of those sessions exactly once, the
    first group only pinned and the second only non-pinned ones, all of
    them sessions of the store's list; with an empty search nothing is
    left out. *)
Theorem sidebar_groups_partition (toLowerCase : string -> string)
    (searchQuery : string) (l : list Session.t) :
  Permutation
    (Sidebar.pinnedSessions toLowerCase searchQuery l
       ++ Sidebar.recentSessions toLowerCase searchQuery l)%list
    (Sidebar.filtered toLowerCase searchQuery l)
  /\ Forall (fun s => Session.is_pinned s = true)
       (Sidebar.pinnedSessions toLowerCase searchQuery l)
  /\ Forall (fun s => Session.is_pinned s = false)
       (Sidebar.recentSessions toLowerCase searchQuery l)
  /\ (forall s, In s (Sidebar.filtered toLowerCase searchQuery l) -> In s l)
  /\ Sidebar.filtered toLowerCase EmptyString l = l.
Proof.
  unfold Sidebar.pinnedSessions, Sidebar.recentSessions.
  split; [apply filter_pinned_partition|]. split; [|split; [|split]].
  - rewrite List.Forall_forall. intros s Hs. apply filter_In in Hs. apply Hs.
  - rewrite List.Forall_forall. intros s Hs. apply filter_In in Hs.
    apply negb_true_iff, Hs.
  - unfold Sidebar.filtered. destruct (JS.truthy searchQuery); [|auto].
    intros s Hs. apply filter_In in Hs. apply Hs.
  - reflexivity.
Qed.

(** X28.  On a list ordered by the pin/recency rule and with an empty
    search, the sidebar shows the sessions in the order of the store: its
    pinned group followed by its recent group is the list itself. *)
Theorem sidebar_shows_store_order (toLowerCase : string -> string)
    (Date_getTime : string -> Z) (l : list Session.t) :
  registry_ordered Date_getTime l ->
  (Sidebar.pinnedSessions toLowerCase EmptyString l
     ++ Sidebar.recentSessions toLowerCase EmptyString l)%list = l.
Proof.
  unfold Sidebar.pinnedSessions, Sidebar.recentSessions, Sidebar.filtered.
  cbn [JS.truthy]. unfold registry_ordered.
  induction 1 as [|a l Hl IH Ha]; [reflexivity|].
  cbn [List.filter]. destruct (Session.is_pinned a) eqn:Hpin; cbn [negb].
  - cbn [app]. now rewrite IH.
  - assert (Hnone : Forall (fun s => Session.is_pinned s = false) l).
    { eapply List.Forall_impl; [|exact Ha].
      intros b [Hb _]. cbn beta. destruct (Session.is_pinned b); [|reflexivity].
      specialize (Hb eq_refl). congruence. }
    assert (Hp : List.filter (fun s => Session.is_pinned s) l = []).
    { clear -Hnone. induction Hnone as [|b l Hb Hl IH]; [reflexivity|].
      cbn [List.filter]. now rewrite Hb. }
    assert (Hr : List.filter (fun s => negb (Session.is_pinned s)) l = l).
    { apply filter_all. eapply List.Forall_impl; [|exact Hnone].
      intros b Hb. cbn beta. now rewrite Hb. }
    now rewrite Hp, Hr.
Qed.

Lemma sidebar_shows_store_order_witness :
  registry_ordered Sample.getTime (sessions Sample.store)
  /\ (Sidebar.pinnedSessions (fun s => s) EmptyString (sessions Sample.store)
        ++ Sidebar.recentSessions (fun s => s) EmptyString (sessions Sample.store))%list
     = sessions Sample.store.
Proof.
  split; [exact sample_store_ordered|].
  exact (sidebar_shows_store_order (fun s => s) Sample.getTime (sessions Sample.store)
           sample_store_ordered).
Defined.

(** * Properties of the form validation *)

Module FormFacts.

Import Form.

Lemma matches_nil_nullable (r : regex) (s : list code_unit) :
  Matches r s -> s = [] -> nullable r = true.
Proof.
  induction 1 as [ |p c Hp|r1 r2 s1 s2 H1 IH1 H2 IH2|r1 r2 s H IH|r1 r2 s H IH
                  |r|r s1 s2 H1 IH1 H2 IH2]; intros Hnil; cbn [nullable];
    try reflexivity; try discriminate.
  - apply app_eq_nil in Hnil. destruct Hnil as [-> ->].
    now rewrite IH1, IH2.
  - now rewrite IH.
  - rewrite IH by exact Hnil. apply orb_true_r.
Qed.

Lemma nullable_matches_nil (r : regex) : nullable r = true -> Matches r [].
Proof.
  induction r as [ | |p|r1 IH1 r2 IH2|r1 IH1 r2 IH2|r IH]; cbn [nullable]; intros H;
    try discriminate.
  - constructor.
  - apply andb_true_iff in H. destruct H as [H1 H2].
    change (@nil code_unit) with (@nil code_unit ++ [])%list.
    constructor; auto.
  - apply orb_true_iff in H. destruct H as [H|H]; [apply MAltL | apply MAltR]; auto.
  - constructor.
Qed.

Lemma derive_sound (c : code_unit) (r : regex) :
  forall s, Matches (derive c r) s -> Matches r (c :: s).
Proof.
  induction r as [ | |p|r1 IH1 r2 IH2|r1 IH1 r2 IH2|r IH]; cbn [derive]; intros s H.
  - inversion H.
  - inversion H.
  - destruct (p c) eqn:Hp; inversion H; subst. now constructor.
  - inversion H as [ | | |? ? ? HL|? ? ? HR| | ]; subst.
    + inversion HL as [ | |? ? s1 s2 H1 H2| | | | ]; subst.
      change (c :: s1 ++ s2)%list with ((c :: s1) ++ s2)%list.
      constructor; auto.
    + destruct (nullable r1) eqn:Hn; [|inversion HR].
      change (c :: s) with ([] ++ c :: s)%list.
      constructor; [apply nullable_matches_nil, Hn | auto].
  - inversion H; subst; [apply MAltL | apply MAltR]; auto.
  - inversion H as [ | |? ? s1 s2 H1 H2| | | | ]; subst.
    change (c :: s1 ++ s2)%list with ((c :: s1) ++ s2)%list.
    constructor; auto.
Qed.

Lemma derive_complete (r : regex) (w : list code_unit) :
  Matches r w -> forall c s, w = c :: s -> Matches (derive c r) s.
Proof.
  induction 1 as [ |p c0 Hp|r1 r2 s1 s2 H1 IH1 H2 IH2|r1 r2 s0 H IH|r1 r2 s0 H IH
                  |r|r s1 s2 H1 IH1 H2 IH2]; intros c s Hw; cbn [derive].
  - discriminate.
  - injection Hw as -> <-. rewrite Hp. constructor.
  - destruct s1 as [|c1 s1'].
    + cbn [app] in Hw. apply MAltR.
      rewrite (matches_nil_nullable r1 [] H1 eq_refl). apply IH2, Hw.
    + injection Hw as -> <-. apply MAltL. constructor; auto.
  - apply MAltL. auto.
  - apply MAltR. auto.
  - discriminate.
  - destruct s1 as [|c1 s1'].
    + cbn [app] in Hw. apply (IH2 c s Hw).
    + injection Hw as -> <-. constructor; auto.
Qed.

(** The derivative test decides end-to-end matching. *)
Lemma test_spec (s : list code_unit) :
  forall r, test r s = true <-> Matches r s.
Proof.
  unfold test. induction s as [|c s IH]; intros r; cbn [fold_left].
  - split; [apply nullable_matches_nil | intros H; eapply matches_nil_nullable; eauto].
  - rewrite IH. split; [apply derive_sound | intros H; eapply derive_complete; eauto].
Qed.

Lemma star_class (p : code_unit -> bool) (r : regex) (s : list code_unit) :
  Matches r s -> r = Star (Class p) -> Forall (fun c => p c = true) s.
Proof.
  induction 1 as [ |p0 c Hp|r1 r2 s1 s2 H1 IH1 H2 IH2|r1 r2 s0 H IH|r1 r2 s0 H IH
                  |r|r s1 s2 H1 IH1 H2 IH2]; intros Hr; try discriminate.
  - constructor.
  - injection Hr as ->. inversion H1; subst. constructor; [assumption|].
    apply IH2. reflexivity.
Qed.

Lemma class_star (p : code_unit -> bool) (s : list code_unit) :
  Forall (fun c => p c = true) s -> Matches (Star (Class p)) s.
Proof.
  induction 1 as [|c s Hc Hs IH]; [constructor|].
  change (c :: s) with ([c] ++ s)%list. constructor; [now constructor | exact IH].
Qed.

(** [p+]: a non-empty text of code units of the class. *)
Lemma plus_class (p : code_unit -> bool) (s : list code_unit) :
  Matches (Plus (Class p)) s <-> s <> [] /\ Forall (fun c => p c = true) s.
Proof.
  unfold Plus. split.
  - intros H. inversion H as [ | |? ? s1 s2 H1 H2| | | | ]; subst.
    inversion H1; subst. split; [discriminate|].
    constructor; [assumption|]. eapply star_class; eauto.
  - intros [Hne Hall]. destruct s as [|c s]; [contradiction|].
    inversion Hall; subst.
    change (c :: s) with ([c] ++ s)%list.
    constructor; [now constructor | now apply class_star].
Qed.

Lemma single_class (c0 : code_unit) (s : list code_unit) :
  Matches (Class (N.eqb c0)) s <-> s = [c0].
Proof.
  split.
  - intros H. inversion H as [ |? c Hc| | | | | ]; subst.
    apply N.eqb_eq in Hc. now subst.
  - intros ->. constructor. apply N.eqb_refl.
Qed.

End FormFacts.

(** X29.  The e-mail test of the registration form accepts exactly the
    texts of the shape [local@domain.rest] in which the three parts are
    non-empty and hold neither white space nor '@'. *)
Theorem email_test_shape (s : list Form.code_unit) :
  Form.test Form.email_pattern s = true
  <-> exists a b c,
        s = (a ++ [Form.at_sign] ++ b ++ [Form.full_stop] ++ c)%list
        /\ a <> [] /\ b <> [] /\ c <> []
        /\ Forall (fun x => Form.plain x = true) a
        /\ Forall (fun x => Form.plain x = true) b
        /\ Forall (fun x => Form.plain x = true) c.
Proof.
  rewrite FormFacts.test_spec. unfold Form.email_pattern. split.
  - intros H.
    inversion H as [ | |? ? a s1 Ha H1| | | | ]; subst.
    inversion H1 as [ | |? ? at1 s2 Hat H2| | | | ]; subst.
    inversion H2 as [ | |? ? b s3 Hb H3| | | | ]; subst.
    inversion H3 as [ | |? ? dot c Hdot Hc| | | | ]; subst.
    apply FormFacts.plus_class in Ha, Hb, Hc.
    apply FormFacts.single_class in Hat, Hdot. subst.
    exists a, b, c. tauto.
  - intros (a & b & c & -> & Ha & Hb & Hc & Fa & Fb & Fc).
    constructor; [now apply FormFacts.plus_class|].
    constructor; [now apply FormFacts.single_class|].
    constructor; [now apply FormFacts.plus_class|].
    constructor; [now apply FormFacts.single_class|].
    now apply FormFacts.plus_class.
Qed.

Lemma plain_facts (l : list Form.code_unit) :
  Forall (fun x => Form.plain x = true) l ->
  count_occ N.eq_dec l Form.at_sign = 0%nat
  /\ Forall (fun x => Form.is_whitespace x = false) l.
Proof.
  induction 1 as [|x l Hx Hl [IHc IHw]]; [split; [reflexivity | constructor]|].
  unfold Form.plain in Hx. apply negb_true_iff, orb_false_iff in Hx.
  destruct Hx as [Hw Hat]. apply N.eqb_neq in Hat. split.
  - rewrite count_occ_cons_neq by exact Hat. exact IHc.
  - now constructor.
Qed.

(** X30.  A text the registration form accepts as e-mail address holds
    exactly one '@', no white space at all, and at least five code units;
    and the form is valid only with a user name of at least three and a
    password of at least six code units. *)
Theorem accepted_email_facts (username email password : list Form.code_unit) :
  (Form.test Form.email_pattern email = true ->
   count_occ N.eq_dec email Form.at_sign = 1%nat
   /\ Forall (fun x => Form.is_whitespace x = false) email
   /\ (5 <= length email)%nat)
  /\ (Form.register_isValid username email password = true ->
      (3 <= length username)%nat /\ (6 <= length password)%nat
      /\ Form.test Form.email_pattern email = true
      /\ Form.login_isValid username password = true).
Proof.
  split.
  - intros H. apply email_test_shape in H.
    destruct H as (a & b & c & -> & Ha & Hb & Hc & Fa & Fb & Fc).
    apply plain_facts in Fa, Fb, Fc.
    destruct Fa as [Ca Wa], Fb as [Cb Wb], Fc as [Cc Wc].
    split; [|split].
    + unfold Form.code_unit in *. rewrite !count_occ_app, Ca, Cb, Cc. reflexivity.
    + repeat (apply Forall_app; split); try assumption; repeat constructor.
    + rewrite !length_app. cbn [length].
      destruct a; [contradiction|]. destruct b; [contradiction|].
      destruct c; [contradiction|]. cbn [length]. lia.
  - unfold Form.register_isValid, Form.login_isValid. intros H.
    apply andb_true_iff in H. destruct H as [H Hp].
    apply andb_true_iff in H. destruct H as [Hu He].
    rewrite Hu, Hp. apply Nat.leb_le in Hu, Hp. auto.
Qed.
